(** * dodal: detector staging and aperture/scatterguard safe moves

    A shallow embedding of [dodal.devices.eiger.EigerDetector] and
    [dodal.devices.aperturescatterguard.ApertureScatterguard].

    Python floats are IEEE binary64 values, modelled by Rocq's primitive
    floats, and objects with an identity where a container compares them
    ([in], [==] on tuples); Python ints are [Z]; strings are [string].  A
    device method is a computation over the device object's attributes and
    the history of operations issued to the hardware.  An exception leaves
    every mutation made before it in place, as in Python. *)

From Stdlib Require Import ZArith List String Ascii Bool DecimalString.
From Stdlib Require Import Floats.
From Stdlib Require Import Permutation.
Import ListNotations.

(** ** The ophyd layer: signals, status objects and the hardware behind them *)

Module Ophyd.

(** What a signal carries. *)
Inductive value :=
| VFloat (f : float)
| VInt (z : Z)
| VStr (s : string).

Inductive motor :=
| aperture_x | aperture_y | aperture_z
| scatterguard_x | scatterguard_y.

Inductive motor_pv := user_setpoint | user_readback | motor_done_move.

Inductive cam_pv :=
| cam_roi_mode | cam_photon_energy | cam_acquire_time | cam_acquire_period
| cam_num_exposures | cam_image_mode | cam_trigger_mode
| cam_beam_center_x | cam_beam_center_y | cam_det_distance
| cam_omega_start | cam_omega_incr
| cam_num_images | cam_num_triggers | cam_acquire.

Inductive odin_pv :=
| fw_image_height | fw_image_width | fw_num_row_chunks | fw_num_col_chunks
| fw_num_frames_chunks | fw_file_path | fw_file_name | fw_id
| fw_num_capture | fw_num_captured | fw_start_timeout | fw_data_type
| fw_capture | meta_file_name | meta_ready | fan_ready.

Inductive signal :=
| Motor (m : motor)                   (* the motor as a positioner: [m.set(v)] *)
| MotorPV (m : motor) (pv : motor_pv) (* [m.user_setpoint] and the like *)
| Cam (pv : cam_pv)
| Odin (pv : odin_pv)
| stale_params
| bit_depth.

(** Status objects, by how they were made. *)
Inductive status :=
| SSet (s : signal) (v : value)     (* returned by [s.set(v)] *)
| SFinished                         (* [Status(); set_finished()] *)
| SAwait (s : signal) (v : value)   (* [await_value(s, v)] *)
| SOdinStop                         (* [odin.stop()] *)
| SOdinFinished                     (* [odin.create_finished_status()] *)
| SAnd (l r : status).              (* [l & r] *)

(** What a [wait] finds: the status finished successfully, finished with a
    failure, or is still pending (at the deadline, or for ever). *)
Inductive fate := DoneOk | DoneFail | Pending.

Inductive odin_call := clear_odin_errors | odin_stop.

Inductive level := Info | Error.

(** The operations a method issues, in call order. *)
Inductive event :=
| EvSet (s : signal) (v : value)
| EvPut (s : signal) (v : value)
| EvWait (st : status) (timeout : option Z) (seen : fate)
| EvCall (c : odin_call)
| EvLog (l : level) (msg : string).

Definition history := list event.

(** The hardware and the writer subsystem, as the device code sees them:
    every answer may depend on all that was issued so far. *)
Record hardware := {
  read_float : history -> signal -> float;
  read_int : history -> signal -> Z;
  resolve : history -> status -> option Z -> fate;
  success_flag : history -> status -> bool;
  check_odin_initialised : history -> bool * string;
  check_odin_state : history -> bool
}.

Inductive exn :=
| AssertionError
| AttributeError
| InvalidApertureMove (msg : string)
| PyException (msg : string)
| WaitTimeoutError
| StatusFailure.

(** [Hang]: the call never returns (a [wait()] without deadline on a status
    that never finishes). *)
Inductive result (A : Type) :=
| Ok (a : A)
| Raise (e : exn)
| Hang.
Arguments Ok {A} a.
Arguments Raise {A} e.
Arguments Hang {A}.

(** A device object: its Python attributes and the history of its hardware. *)
Record world (D : Type) := World { self : D; trace : history }.
Arguments World {D} self trace.
Arguments self {D} w.
Arguments trace {D} w.

Definition M (D A : Type) := world D -> result A * world D.

Definition ret {D A} (a : A) : M D A := fun w => (Ok a, w).

Definition bind {D A B} (c : M D A) (k : A -> M D B) : M D B :=
  fun w =>
    match c w with
    | (Ok a, w') => k a w'
    | (Raise e, w') => (Raise e, w')
    | (Hang, w') => (Hang, w')
    end.

Definition raise {D A} (e : exn) : M D A := fun w => (Raise e, w).

(** [try: c  except AssertionError as e: h e] *)
Definition try_except_AssertionError {D A} (c : M D A) (h : exn -> M D A)
  : M D A :=
  fun w =>
    match c w with
    | (Raise AssertionError, w') => h AssertionError w'
    | r => r
    end.

Definition assert {D} (b : bool) : M D unit :=
  if b then ret tt else raise AssertionError.

Definition get_self {D} : M D D := fun w => (Ok (self w), w).

Definition set_self {D} (d : D) : M D unit :=
  fun w => (Ok tt, World d (trace w)).

Definition get_history {D} : M D history := fun w => (Ok (trace w), w).

Definition issue {D} (e : event) : M D unit :=
  fun w => (Ok tt, World (self w) (trace w ++ [e])).

Section Hardware.
Context {D : Type} (hw : hardware).

Definition get_float (s : signal) : M D float :=
  fun w => (Ok (read_float hw (trace w) s), w).

Definition get_int (s : signal) : M D Z :=
  fun w => (Ok (read_int hw (trace w) s), w).

(** [s.set(v)] starts the operation and hands back its status. *)
Definition sig_set (s : signal) (v : value) : M D status :=
  bind (issue (EvSet s v)) (fun _ => ret (SSet s v)).

(** [s.put(v)]: fire and forget. *)
Definition sig_put (s : signal) (v : value) : M D unit :=
  issue (EvPut s v).

(** What a wait on [st] finds after [h]. *)
Definition fate_of (h : history) (st : status) (timeout : option Z) : fate :=
  match st with
  | SFinished => DoneOk
  | _ => resolve hw h st timeout
  end.

(** [st.wait(timeout)], ophyd's [StatusBase.wait]: returns when [st] has
    finished successfully, raises the failure of a status that finished
    with one, raises [WaitTimeoutError] when [st] is still pending at the
    deadline, and blocks for ever on a pending status without deadline.
    The wait is written to the history with what it found. *)
Definition wait (st : status) (timeout : option Z) : M D unit :=
  fun w =>
    let seen := fate_of (trace w) st timeout in
    let w' := World (self w) (trace w ++ [EvWait st timeout seen]) in
    match seen with
    | DoneOk => (Ok tt, w')
    | DoneFail => (Raise StatusFailure, w')
    | Pending =>
        match timeout with
        | Some _ => (Raise WaitTimeoutError, w')
        | None => (Hang, w')
        end
    end.

(** [st.success], read off the status object; nothing ties it to what an
    earlier (possibly patched) [wait] did. *)
Definition success (st : status) : M D bool :=
  fun w =>
    (Ok match st with
        | SFinished => true
        | _ => success_flag hw (trace w) st
        end, w).
End Hardware.

(** Python truth value of an int. *)
Definition truthy (z : Z) : bool := negb (z =? 0)%Z.

(** [str(z)] for an int. *)
Definition str_of_int (z : Z) : string := NilZero.string_of_int (Z.to_int z).

(** Modelled from the spec: [dodal.devices.status.await_value] (not among the
    sources), which "resolves successful when observed value equals target,
    failed on timeout"; it subscribes to the readback and writes nothing. *)
Definition await_value {D} (s : signal) (v : value) : M D status :=
  ret (SAwait s v).

Module Notations.
Declare Scope py_scope.
Delimit Scope py_scope with py.
Notation "x <- c ;; k" := (bind c (fun x => k))
  (at level 61, c at next level, right associativity) : py_scope.
Notation "c ;; k" := (bind c (fun _ => k))
  (at level 61, right associativity) : py_scope.
End Notations.

End Ophyd.

(** ** dodal.devices.aperturescatterguard *)

Module ApertureScatterguard.
Import Ophyd Ophyd.Notations.
Local Open Scope py_scope.

(** A Python float as the containers see it: its number, and which object
    it is.  [address] is the identity of the object ([id(x)]): two
    references are the same object ([a is b]) exactly when their addresses
    are equal, and an object never changes its number.  Where a number is
    asked for (a comparison with [>] or [!=], the argument of a motor's
    [set]) the object stands for its [number]. *)
Record pyfloat := PyFloat {
  address : N;
  number :> float
}.

(** [a is b] *)
Definition same_object (a b : pyfloat) : bool :=
  N.eqb (address a) (address b).

(** The comparison of two items that tuples and lists make
    ([PyObject_RichCompareBool(a, b, Py_EQ)]): the same object, or
    [a == b]. *)
Definition item_eq (a b : pyfloat) : bool :=
  same_object a b || PrimFloat.eqb a b.

(** (miniap_x, miniap_y, miniap_z, scatterguard_x, scatterguard_y): a tuple
    of five references. *)
Definition position := (pyfloat * pyfloat * pyfloat * pyfloat * pyfloat)%type.

(** The five numbers of a tuple. *)
Definition numbers (pos : position) : float * float * float * float * float :=
  let '(ax, ay, az, sx, sy) := pos in
  (number ax, number ay, number az, number sx, number sy).

Record AperturePositions := {
  LARGE : position;
  MEDIUM : position;
  SMALL : position;
  ROBOT_LOAD : position
}.

(** [a == b] on 5-tuples, as [in] tests it on each item of a list: every
    pair of components is the same object or compares equal under IEEE
    equality.  So a tuple compares equal to itself and to any tuple around
    the same five objects, also when it holds a NaN, and a NaN compares
    equal to no other object.  (The test [a is b] that [in] makes first is
    covered: one tuple object holds the same five objects.) *)
Definition tuple_eq (a b : position) : bool :=
  let '(a1, a2, a3, a4, a5) := a in
  let '(b1, b2, b3, b4, b5) := b in
  item_eq a1 b1 && item_eq a2 b2 && item_eq a3 b3
  && item_eq a4 b4 && item_eq a5 b5.

(** [pos in l] *)
Definition tuple_in (pos : position) (l : list position) : bool :=
  existsb (fun p => tuple_eq p pos) l.

Definition position_valid (self : AperturePositions) (pos : position) : bool :=
  if negb (tuple_in pos [LARGE self; MEDIUM self; SMALL self; ROBOT_LOAD self])
  then false
  else true.

(** The device object: [aperture_positions: Optional[AperturePositions]]. *)
Definition device := option AperturePositions.

Definition load_aperture_positions (positions : AperturePositions)
  : M device unit :=
  set_self (Some positions).

Definition not_defined_message : string :=
  "ApertureScatterguard safe move is not yet defined for positions outside of LARGE, MEDIUM, SMALL, ROBOT_LOAD.".

Section Device.
Variable hw : hardware.

Definition _safe_move_within_datacollection_range
  (ax ay az sx sy : float) : M device (option status) :=
  ap_z_in_position <- get_int hw (MotorPV aperture_z motor_done_move) ;;
  if negb (truthy ap_z_in_position) then ret None else
  current_ap_z <- get_float hw (MotorPV aperture_z user_setpoint) ;;
  if negb (PrimFloat.eqb current_ap_z az)
  then raise (InvalidApertureMove not_defined_message) else
  current_ap_y <- get_float hw (MotorPV aperture_y user_readback) ;;
  if PrimFloat.ltb current_ap_y ay then
    s1 <- sig_set (Motor scatterguard_x) (VFloat sx) ;;
    s2 <- sig_set (Motor scatterguard_y) (VFloat sy) ;;
    let sg_status := SAnd s1 s2 in
    wait hw sg_status None ;;
    a1 <- sig_set (Motor aperture_x) (VFloat ax) ;;
    a2 <- sig_set (Motor aperture_y) (VFloat ay) ;;
    a3 <- sig_set (Motor aperture_z) (VFloat az) ;;
    ret (Some (SAnd (SAnd (SAnd sg_status a1) a2) a3))
  else
    a1 <- sig_set (Motor aperture_x) (VFloat ax) ;;
    a2 <- sig_set (Motor aperture_y) (VFloat ay) ;;
    a3 <- sig_set (Motor aperture_z) (VFloat az) ;;
    let ap_status := SAnd (SAnd a1 a2) a3 in
    wait hw ap_status None ;;
    s1 <- sig_set (Motor scatterguard_x) (VFloat sx) ;;
    s2 <- sig_set (Motor scatterguard_y) (VFloat sy) ;;
    ret (Some (SAnd (SAnd ap_status s1) s2)).

(** [*pos] hands the five objects on; the safe move reads their numbers. *)
Definition set (pos : position) : M device (option status) :=
  try_except_AssertionError
    (aperture_positions <- get_self ;;
     match aperture_positions with
     | None => assert false
     | Some positions => assert (position_valid positions pos)
     end)
    (fun e => raise (InvalidApertureMove "AssertionError()")) ;;
  let '(ax, ay, az, sx, sy) := pos in
  _safe_move_within_datacollection_range ax ay az sx sy.

End Device.

(** *** Reading the history of a move *)

Definition sg_moves (sx sy : float) : history :=
  [EvSet (Motor scatterguard_x) (VFloat sx);
   EvSet (Motor scatterguard_y) (VFloat sy)].

(** [scatterguard.x.set(sx) & scatterguard.y.set(sy)] *)
Definition sg_composite (sx sy : float) : status :=
  SAnd (SSet (Motor scatterguard_x) (VFloat sx))
       (SSet (Motor scatterguard_y) (VFloat sy)).

Definition ap_moves (ax ay az : float) : history :=
  [EvSet (Motor aperture_x) (VFloat ax);
   EvSet (Motor aperture_y) (VFloat ay);
   EvSet (Motor aperture_z) (VFloat az)].

(** [aperture.x.set(ax) & aperture.y.set(ay) & aperture.z.set(az)] *)
Definition ap_composite (ax ay az : float) : status :=
  SAnd (SAnd (SSet (Motor aperture_x) (VFloat ax))
             (SSet (Motor aperture_y) (VFloat ay)))
       (SSet (Motor aperture_z) (VFloat az)).

(** The moves of the second phase, issued only after a wait that found the
    first phase finished. *)
Definition second_phase (seen : fate) (second : history) : history :=
  match seen with DoneOk => second | _ => [] end.

(** A two-phase history: the moves of the first phase, a wait without
    deadline on their composite, and the moves of the second phase only when
    that wait found the composite finished. *)
Definition barrier (first : history) (composite : status) (second new : history)
  : Prop :=
  exists seen,
    new = first ++ EvWait composite None seen :: second_phase seen second.

(** What a wait without deadline returns, after the moves of a phase. *)
Definition after_wait (seen : fate) (final : status)
  : result (option status) :=
  match seen with
  | DoneOk => Ok (Some final)
  | DoneFail => Raise StatusFailure
  | Pending => Hang
  end.

(** The move of a motor of the group [grp]. *)
Definition moves (grp : motor -> bool) (e : event) : bool :=
  match e with
  | EvSet (Motor m) _ => grp m
  | _ => false
  end.

Definition is_scatterguard (m : motor) : bool :=
  match m with
  | scatterguard_x | scatterguard_y => true
  | _ => false
  end.

Definition is_aperture (m : motor) : bool := negb (is_scatterguard m).

(** [set(pos)] gets as far as comparing the y positions: the preset table is
    loaded and holds [pos], z reports motion-complete and z's setpoint is the
    requested one. *)
Definition accepted (hw : hardware) (pos : position) (w : world device) : Prop :=
  let '(_, _, az, _, _) := pos in
  (exists positions,
      self w = Some positions /\ position_valid positions pos = true)
  /\ truthy (read_int hw (trace w) (MotorPV aperture_z motor_done_move)) = true
  /\ PrimFloat.eqb (read_float hw (trace w) (MotorPV aperture_z user_setpoint)) az
     = true.

(** *** Example hardware and presets *)

(** The four presets, in the order [position_valid] lists them. *)
Definition preset_list (positions : AperturePositions) : list position :=
  [LARGE positions; MEDIUM positions; SMALL positions; ROBOT_LOAD positions].

(** A tuple a client builds from numbers of its own, with the zero of the
    other sign where [LARGE presets] has 0. *)
Definition large_negative_zero : position :=
  (PyFloat 21 (-0), PyFloat 22 20, PyFloat 23 2, PyFloat 24 3, PyFloat 25 4).

(** Motors at rest at z = 2, aperture y reading 10; every operation
    finishes. *)
Definition still_hw : hardware := {|
  read_float := fun _ s =>
    match s with
    | MotorPV aperture_y user_readback => 10%float
    | MotorPV aperture_z user_setpoint => 2%float
    | _ => 0%float
    end;
  read_int := fun _ _ => 1%Z;
  resolve := fun _ _ _ => DoneOk;
  success_flag := fun _ _ => true;
  check_odin_initialised := fun _ => (true, EmptyString);
  check_odin_state := fun _ => true
|}.

(** As [still_hw], with the z axis still moving. *)
Definition moving_hw : hardware := {|
  read_float := read_float still_hw;
  read_int := fun _ _ => 0%Z;
  resolve := resolve still_hw;
  success_flag := success_flag still_hw;
  check_odin_initialised := check_odin_initialised still_hw;
  check_odin_state := check_odin_state still_hw
|}.

(** Twenty objects of their own. *)
Definition presets : AperturePositions := {|
  LARGE := (PyFloat 1 0, PyFloat 2 20, PyFloat 3 2, PyFloat 4 3, PyFloat 5 4);
  MEDIUM := (PyFloat 6 1, PyFloat 7 5, PyFloat 8 2, PyFloat 9 3, PyFloat 10 5);
  SMALL :=
    (PyFloat 11 2, PyFloat 12 6, PyFloat 13 2, PyFloat 14 4, PyFloat 15 6);
  ROBOT_LOAD :=
    (PyFloat 16 3, PyFloat 17 7, PyFloat 18 2, PyFloat 19 5, PyFloat 20 7)
|}.

Definition loaded : world device := World (Some presets) [].

Definition unloaded : world device := World None [].

(** *** AperturePositions.from_gda_beamline_params *)

(** The beamline parameters, a dict from names to floats, as far as
    [params[key]] reads it. *)
Definition beamline_params := string -> option pyfloat.

(** [params[key]]: the object stored, or KeyError(key). *)
Definition getitem (params : beamline_params) (key : string)
  : string + pyfloat :=
  match params key with
  | Some v => inr v
  | None => inl key
  end.

(** Sequencing of lookups: the first KeyError ends the evaluation. *)
Definition key_bind {A B} (c : string + A) (k : A -> string + B) : string + B :=
  match c with
  | inl key => inl key
  | inr a => k a
  end.

Local Notation "'let!' x ':=' c 'in' k" := (key_bind c (fun x => k))
  (at level 10, x name, c at level 100, k at level 200, only parsing).

(** The classmethod: [inl key] is KeyError(key). *)
Definition from_gda_beamline_params (params : beamline_params)
  : string + AperturePositions :=
  let! large_miniap_x := getitem params "miniap_x_LARGE_APERTURE"%string in
  let! large_miniap_y := getitem params "miniap_y_LARGE_APERTURE"%string in
  let! large_miniap_z := getitem params "miniap_z_LARGE_APERTURE"%string in
  let! large_sg_x := getitem params "sg_x_LARGE_APERTURE"%string in
  let! large_sg_y := getitem params "sg_y_LARGE_APERTURE"%string in
  let! medium_miniap_x := getitem params "miniap_x_MEDIUM_APERTURE"%string in
  let! medium_miniap_y := getitem params "miniap_y_MEDIUM_APERTURE"%string in
  let! medium_miniap_z := getitem params "miniap_z_MEDIUM_APERTURE"%string in
  let! medium_sg_x := getitem params "sg_x_MEDIUM_APERTURE"%string in
  let! medium_sg_y := getitem params "sg_y_MEDIUM_APERTURE"%string in
  let! small_miniap_x := getitem params "miniap_x_SMALL_APERTURE"%string in
  let! small_miniap_y := getitem params "miniap_y_SMALL_APERTURE"%string in
  let! small_miniap_z := getitem params "miniap_z_SMALL_APERTURE"%string in
  let! small_sg_x := getitem params "sg_x_SMALL_APERTURE"%string in
  let! small_sg_y := getitem params "sg_y_SMALL_APERTURE"%string in
  let! robot_load_miniap_x := getitem params "miniap_x_ROBOT_LOAD"%string in
  let! robot_load_miniap_y := getitem params "miniap_y_ROBOT_LOAD"%string in
  let! robot_load_miniap_z := getitem params "miniap_z_ROBOT_LOAD"%string in
  let! robot_load_sg_x := getitem params "sg_x_ROBOT_LOAD"%string in
  let! robot_load_sg_y := getitem params "sg_y_ROBOT_LOAD"%string in
  inr {|
    LARGE := (large_miniap_x, large_miniap_y, large_miniap_z, large_sg_x, large_sg_y);
    MEDIUM := (medium_miniap_x, medium_miniap_y, medium_miniap_z, medium_sg_x, medium_sg_y);
    SMALL := (small_miniap_x, small_miniap_y, small_miniap_z, small_sg_x, small_sg_y);
    ROBOT_LOAD := (robot_load_miniap_x, robot_load_miniap_y, robot_load_miniap_z, robot_load_sg_x, robot_load_sg_y)
  |}.

(** The keys [from_gda_beamline_params] reads, in the order it reads them. *)
Definition gda_keys : list string :=
  ["miniap_x_LARGE_APERTURE"%string;
   "miniap_y_LARGE_APERTURE"%string;
   "miniap_z_LARGE_APERTURE"%string;
   "sg_x_LARGE_APERTURE"%string;
   "sg_y_LARGE_APERTURE"%string;
   "miniap_x_MEDIUM_APERTURE"%string;
   "miniap_y_MEDIUM_APERTURE"%string;
   "miniap_z_MEDIUM_APERTURE"%string;
   "sg_x_MEDIUM_APERTURE"%string;
   "sg_y_MEDIUM_APERTURE"%string;
   "miniap_x_SMALL_APERTURE"%string;
   "miniap_y_SMALL_APERTURE"%string;
   "miniap_z_SMALL_APERTURE"%string;
   "sg_x_SMALL_APERTURE"%string;
   "sg_y_SMALL_APERTURE"%string;
   "miniap_x_ROBOT_LOAD"%string;
   "miniap_y_ROBOT_LOAD"%string;
   "miniap_z_ROBOT_LOAD"%string;
   "sg_x_ROBOT_LOAD"%string;
   "sg_y_ROBOT_LOAD"%string].

(** The twenty numbers of a preset table, preset by preset. *)
Definition tuple_components (pos : position) : list pyfloat :=
  let '(ax, ay, az, sx, sy) := pos in [ax; ay; az; sx; sy].

Definition components (positions : AperturePositions) : list pyfloat :=
  tuple_components (LARGE positions) ++ tuple_components (MEDIUM positions)
  ++ tuple_components (SMALL positions)
  ++ tuple_components (ROBOT_LOAD positions).

Definition missing (params : beamline_params) (key : string) : bool :=
  match params key with
  | None => true
  | Some _ => false
  end.

(** A dict given by its items. *)
Definition dict_of (items : list (string * pyfloat)) : beamline_params :=
  fun key =>
    option_map snd (find (fun item => String.eqb (fst item) key) items).

(** The parameters behind [presets]. *)
Definition presets_params : beamline_params :=
  dict_of
  [("miniap_x_LARGE_APERTURE"%string, PyFloat 1 0);
   ("miniap_y_LARGE_APERTURE"%string, PyFloat 2 20);
   ("miniap_z_LARGE_APERTURE"%string, PyFloat 3 2);
   ("sg_x_LARGE_APERTURE"%string, PyFloat 4 3);
   ("sg_y_LARGE_APERTURE"%string, PyFloat 5 4);
   ("miniap_x_MEDIUM_APERTURE"%string, PyFloat 6 1);
   ("miniap_y_MEDIUM_APERTURE"%string, PyFloat 7 5);
   ("miniap_z_MEDIUM_APERTURE"%string, PyFloat 8 2);
   ("sg_x_MEDIUM_APERTURE"%string, PyFloat 9 3);
   ("sg_y_MEDIUM_APERTURE"%string, PyFloat 10 5);
   ("miniap_x_SMALL_APERTURE"%string, PyFloat 11 2);
   ("miniap_y_SMALL_APERTURE"%string, PyFloat 12 6);
   ("miniap_z_SMALL_APERTURE"%string, PyFloat 13 2);
   ("sg_x_SMALL_APERTURE"%string, PyFloat 14 4);
   ("sg_y_SMALL_APERTURE"%string, PyFloat 15 6);
   ("miniap_x_ROBOT_LOAD"%string, PyFloat 16 3);
   ("miniap_y_ROBOT_LOAD"%string, PyFloat 17 7);
   ("miniap_z_ROBOT_LOAD"%string, PyFloat 18 2);
   ("sg_x_ROBOT_LOAD"%string, PyFloat 19 5);
   ("sg_y_ROBOT_LOAD"%string, PyFloat 20 7)].

(** *** Reading the outcome of a move *)

(** The operations a status is the AND of. *)
Fixpoint leaves (st : status) : list status :=
  match st with
  | SAnd l r => leaves l ++ leaves r
  | _ => [st]
  end.

(** The five moves of a target, as statuses and as operations. *)
Definition target_statuses (pos : position) : list status :=
  let '(ax, ay, az, sx, sy) := pos in
  [SSet (Motor aperture_x) (VFloat ax);
   SSet (Motor aperture_y) (VFloat ay);
   SSet (Motor aperture_z) (VFloat az);
   SSet (Motor scatterguard_x) (VFloat sx);
   SSet (Motor scatterguard_y) (VFloat sy)].

Definition target_events (pos : position) : history :=
  let '(ax, ay, az, sx, sy) := pos in
  [EvSet (Motor aperture_x) (VFloat ax);
   EvSet (Motor aperture_y) (VFloat ay);
   EvSet (Motor aperture_z) (VFloat az);
   EvSet (Motor scatterguard_x) (VFloat sx);
   EvSet (Motor scatterguard_y) (VFloat sy)].

(** The motor moves among the operations of a history. *)
Definition motor_moves (h : history) : history :=
  filter (moves (fun _ => true)) h.

(** A target that asks for another z than LARGE, MEDIUM, SMALL and
    ROBOT_LOAD have, and presets that hold it. *)
Definition other_plane : position :=
  (PyFloat 31 0, PyFloat 32 20, PyFloat 33 9, PyFloat 34 3, PyFloat 35 4).

Definition other_plane_presets : AperturePositions := {|
  LARGE := other_plane;
  MEDIUM := MEDIUM presets;
  SMALL := SMALL presets;
  ROBOT_LOAD := ROBOT_LOAD presets
|}.

(** As [still_hw], with no reading of the aperture y position (NaN). *)
Definition blind_hw : hardware := {|
  read_float := fun _ s =>
    match s with
    | MotorPV aperture_y user_readback => PrimFloat.nan
    | MotorPV aperture_z user_setpoint => 2%float
    | _ => 0%float
    end;
  read_int := read_int still_hw;
  resolve := resolve still_hw;
  success_flag := success_flag still_hw;
  check_odin_initialised := check_odin_initialised still_hw;
  check_odin_state := check_odin_state still_hw
|}.

Definition other_plane_loaded : world device :=
  World (Some other_plane_presets) [].

(** Presets whose LARGE has no number for the aperture y (NaN), and a tuple
    a client builds from the same five numbers. *)
Definition nan_large : position :=
  (PyFloat 41 0, PyFloat 42 PrimFloat.nan, PyFloat 43 2, PyFloat 44 3,
   PyFloat 45 4).

Definition nan_presets : AperturePositions := {|
  LARGE := nan_large;
  MEDIUM := MEDIUM presets;
  SMALL := SMALL presets;
  ROBOT_LOAD := ROBOT_LOAD presets
|}.

Definition nan_large_copy : position :=
  (PyFloat 51 0, PyFloat 52 PrimFloat.nan, PyFloat 53 2, PyFloat 54 3,
   PyFloat 55 4).

Definition nan_loaded : world device := World (Some nan_presets) [].

End ApertureScatterguard.

(** ** dodal.devices.eiger *)

Module Eiger.
Import Ophyd Ophyd.Notations.
Local Open Scope py_scope.

Definition FREE_RUN_MAX_IMAGES : Z := 1000000.

Inductive InternalEigerTriggerMode :=
| INTERNAL_SERIES | INTERNAL_ENABLE | EXTERNAL_SERIES | EXTERNAL_ENABLE.

Definition InternalEigerTriggerMode_value (m : InternalEigerTriggerMode) : Z :=
  match m with
  | INTERNAL_SERIES => 0
  | INTERNAL_ENABLE => 1
  | EXTERNAL_SERIES => 2
  | EXTERNAL_ENABLE => 3
  end.

(** [ophyd.areadetector.cam.EigerDetectorCam.ImageMode.MULTIPLE] *)
Definition ImageMode_MULTIPLE : Z := 1.

Definition STALE_PARAMS_TIMEOUT : Z := 60.

(** *** dodal.devices.detector *)

(** Modelled from the spec: the enum [TriggerMode] of
    [dodal.devices.detector] (not among the sources), "FREE_RUN, SET_FRAMES". *)
Inductive TriggerMode := FREE_RUN | SET_FRAMES.

(** Modelled from the spec: the "two named pixel-dimension records: full and
    ROI" of [dodal.devices.det_dim_constants] (not among the sources), with
    the [width] and [height] that [change_roi_mode] reads. *)
Record DetectorSize := { width : Z; height : Z }.

Record DetectorSizeConstants := {
  det_size_pixels : DetectorSize;
  roi_size_pixels : DetectorSize
}.

(** The detector-distance lookup: distance to beam centre in pixels. *)
Definition BeamConverter := float -> float * float.

(** Modelled from the spec: [DetectorParams] of [dodal.devices.detector]
    (not among the sources), with the fields of the spec's
    AcquisitionParameters and those [eiger.py] reads. *)
Record DetectorParams := {
  current_energy : float;
  exposure_time : float;
  directory : string;
  prefix : string;
  run_number : Z;
  detector_distance : float;
  omega_start : float;
  omega_increment : float;
  num_images_per_trigger : Z;
  num_triggers : Z;
  use_roi_mode : bool;
  det_dist_to_beam_converter_path : string;
  detector_size_constants : option DetectorSizeConstants;
  beam_xy_converter : option BeamConverter;
  trigger_mode : TriggerMode
}.

(** Modelled from the spec: the derived [full_filename], "{prefix}_{run_number}". *)
Definition full_filename (p : DetectorParams) : string :=
  (prefix p ++ "_" ++ str_of_int (run_number p))%string.

(** Modelled from the spec: [full_number_of_images], the writer's capture
    count in SET_FRAMES mode, "num_triggers x num_images_per_trigger". *)
Definition full_number_of_images (p : DetectorParams) : Z :=
  (num_triggers p * num_images_per_trigger p)%Z.

(** The device object's Python attributes. *)
Record device := {
  detector_params : option DetectorParams;
  filewriters_finished : option status
}.

Definition TriggerMode_eq (a b : TriggerMode) : bool :=
  match a, b with
  | FREE_RUN, FREE_RUN | SET_FRAMES, SET_FRAMES => true
  | _, _ => false
  end.

(** ["\n".join(errors)] *)
Definition newline : string := String (ascii_of_nat 10) EmptyString.

Definition join_lines (errors : list string) : string :=
  String.concat newline errors.

(** The number of lines of a message: [str(e).count("\n") + 1]. *)
Fixpoint count_newlines (s : string) : nat :=
  match s with
  | EmptyString => 0
  | String c s' =>
      (if Ascii.eqb c (ascii_of_nat 10) then 1 else 0) + count_newlines s'
  end.

Definition number_of_lines (s : string) : nat := count_newlines s + 1.

Definition is_None {A} (o : option A) : bool :=
  match o with None => true | Some _ => false end.

(** [self.detector_params = v] *)
Definition assign_detector_params (v : option DetectorParams) : M device unit :=
  fun w =>
    (Ok tt,
     World {| detector_params := v;
              filewriters_finished := filewriters_finished (self w) |}
           (trace w)).

(** [self.filewriters_finished = st] *)
Definition assign_filewriters_finished (st : status) : M device unit :=
  fun w =>
    (Ok tt,
     World {| detector_params := detector_params (self w);
              filewriters_finished := Some st |}
           (trace w)).

Section Device.
Variable hw : hardware.

(** [self.detector_params.<field>]: AttributeError on [None]. *)
Definition params_attr : M device DetectorParams :=
  d <- get_self ;;
  match detector_params d with
  | Some p => ret p
  | None => raise AttributeError
  end.

(** [assert self.detector_params is not None] *)
Definition assert_params : M device DetectorParams :=
  d <- get_self ;;
  match detector_params d with
  | Some p => ret p
  | None => raise AssertionError
  end.

Definition set_detector_parameters (params : option DetectorParams)
  : M device unit :=
  assign_detector_params params ;;
  d <- get_self ;;
  match detector_params d with
  | None => raise (PyException "Parameters for scan must be specified")
  | Some p =>
      let to_check :=
        [ (is_None (detector_size_constants p), "Detector Size must be set"%string);
          (is_None (beam_xy_converter p), "Beam converter must be set"%string) ] in
      let errors := map snd (filter fst to_check) in
      match errors with
      | [] => ret tt
      | _ :: _ => raise (PyException (join_lines errors))
      end
  end.

Definition change_roi_mode (enable : bool) : M device unit :=
  p <- assert_params ;;
  match detector_size_constants p with
  | None => raise AttributeError
  | Some consts =>
      let detector_dimensions :=
        if enable then roi_size_pixels consts else det_size_pixels consts in
      status <- sig_set (Cam cam_roi_mode) (VInt (if enable then 1 else 0)) ;;
      s <- sig_set (Odin fw_image_height) (VInt (height detector_dimensions)) ;;
      let status := SAnd status s in
      s <- sig_set (Odin fw_image_width) (VInt (width detector_dimensions)) ;;
      let status := SAnd status s in
      s <- sig_set (Odin fw_num_row_chunks) (VInt (height detector_dimensions)) ;;
      let status := SAnd status s in
      s <- sig_set (Odin fw_num_col_chunks) (VInt (width detector_dimensions)) ;;
      let status := SAnd status s in
      wait hw status (Some 10%Z) ;;
      ok <- success hw status ;;
      if negb ok then issue (EvLog Error "Failed to switch to ROI mode")
      else ret tt
  end.

Definition enable_roi_mode : M device unit := change_roi_mode true.

Definition disable_roi_mode : M device unit := change_roi_mode false.

Definition set_cam_pvs : M device status :=
  p <- assert_params ;;
  status <- sig_set (Cam cam_acquire_time) (VFloat (exposure_time p)) ;;
  s <- sig_set (Cam cam_acquire_period) (VFloat (exposure_time p)) ;;
  let status := SAnd status s in
  s <- sig_set (Cam cam_num_exposures) (VInt 1) ;;
  let status := SAnd status s in
  s <- sig_set (Cam cam_image_mode) (VInt ImageMode_MULTIPLE) ;;
  let status := SAnd status s in
  s <- sig_set (Cam cam_trigger_mode)
         (VInt (InternalEigerTriggerMode_value EXTERNAL_SERIES)) ;;
  ret (SAnd status s).

Definition set_odin_pvs : M device status :=
  p <- assert_params ;;
  s <- sig_set (Odin fw_num_frames_chunks) (VInt 1) ;;
  wait hw s (Some 10%Z) ;;
  let file_prefix := full_filename p in
  odin_status <- sig_set (Odin fw_file_path) (VStr (directory p)) ;;
  s <- sig_set (Odin fw_file_name) (VStr file_prefix) ;;
  let odin_status := SAnd odin_status s in
  s <- await_value (Odin meta_file_name) (VStr file_prefix) ;;
  let odin_status := SAnd odin_status s in
  s <- await_value (Odin fw_id) (VStr file_prefix) ;;
  ret (SAnd odin_status s).

(** Modelled from the spec: [DetectorParams.get_beam_position_pixels], the
    beam centre "derived from energy and detector distance via the lookup
    converter". *)
Definition get_beam_position_pixels (p : DetectorParams) (distance : float)
  : M device (float * float) :=
  match beam_xy_converter p with
  | Some convert => ret (convert distance)
  | None => raise AttributeError
  end.

Definition set_mx_settings_pvs : M device status :=
  p <- assert_params ;;
  beam <- get_beam_position_pixels p (detector_distance p) ;;
  let '(beam_x_pixels, beam_y_pixels) := beam in
  status <- sig_set (Cam cam_beam_center_x) (VFloat beam_x_pixels) ;;
  s <- sig_set (Cam cam_beam_center_y) (VFloat beam_y_pixels) ;;
  let status := SAnd status s in
  s <- sig_set (Cam cam_det_distance) (VFloat (detector_distance p)) ;;
  let status := SAnd status s in
  s <- sig_set (Cam cam_omega_start) (VFloat (omega_start p)) ;;
  let status := SAnd status s in
  s <- sig_set (Cam cam_omega_incr) (VFloat (omega_increment p)) ;;
  ret (SAnd status s).

Definition default_tolerance : float := 0x1.999999999999ap-4%float.

Definition set_detector_threshold (energy tolerance : float)
  : M device status :=
  current_energy <- get_float hw (Cam cam_photon_energy) ;;
  if PrimFloat.ltb tolerance (PrimFloat.abs (PrimFloat.sub current_energy energy))
  then sig_set (Cam cam_photon_energy) (VFloat energy)
  else ret SFinished.

Definition set_num_triggers_and_captures : M device status :=
  p <- assert_params ;;
  status <- sig_set (Cam cam_num_images) (VInt (num_images_per_trigger p)) ;;
  if TriggerMode_eq (trigger_mode p) FREE_RUN then
    s <- sig_set (Cam cam_num_triggers) (VInt FREE_RUN_MAX_IMAGES) ;;
    let status := SAnd status s in
    s <- sig_set (Odin fw_num_capture) (VInt 0) ;;
    ret (SAnd status s)
  else if TriggerMode_eq (trigger_mode p) SET_FRAMES then
    s <- sig_set (Cam cam_num_triggers) (VInt (num_triggers p)) ;;
    let status := SAnd status s in
    s <- sig_set (Odin fw_num_capture) (VInt (full_number_of_images p)) ;;
    ret (SAnd status s)
  else ret status.

Definition wait_for_stale_parameters : M device unit :=
  s <- await_value stale_params (VInt 0) ;;
  wait hw s (Some STALE_PARAMS_TIMEOUT).

Definition forward_bit_depth_to_filewriter : M device unit :=
  depth <- get_int hw bit_depth ;;
  sig_put (Odin fw_data_type) (VStr ("UInt" ++ str_of_int depth)).

Definition arm_detector : M device unit :=
  issue (EvLog Info "Waiting on stale parameters to go low") ;;
  wait_for_stale_parameters ;;
  forward_bit_depth_to_filewriter ;;
  odin_status <- sig_set (Odin fw_capture) (VInt 1) ;;
  s <- await_value (Odin meta_ready) (VInt 1) ;;
  let odin_status := SAnd odin_status s in
  wait hw odin_status (Some 10%Z) ;;
  issue (EvLog Info "Setting aquire") ;;
  s <- sig_set (Cam cam_acquire) (VInt 1) ;;
  wait hw s (Some 10%Z) ;;
  assign_filewriters_finished SOdinFinished ;;
  s <- await_value (Odin fan_ready) (VInt 1) ;;
  wait hw s (Some 10%Z).

Definition disarm_detector : M device unit :=
  sig_put (Cam cam_acquire) (VInt 0).

Definition stage : M device unit :=
  issue (EvCall clear_odin_errors) ;;
  h <- get_history ;;
  let '(status_ok, error_message) := check_odin_initialised hw h in
  if negb status_ok
  then raise (PyException ("Odin not initialised: " ++ error_message)) else
  p <- params_attr ;;
  (if use_roi_mode p then enable_roi_mode else ret tt) ;;
  p <- params_attr ;;
  status <- set_detector_threshold (current_energy p) default_tolerance ;;
  s <- set_cam_pvs ;;
  let status := SAnd status s in
  s <- set_odin_pvs ;;
  let status := SAnd status s in
  s <- set_mx_settings_pvs ;;
  let status := SAnd status s in
  s <- set_num_triggers_and_captures ;;
  let status := SAnd status s in
  issue (EvLog Info "Waiting on parameter callbacks") ;;
  wait hw status (Some STALE_PARAMS_TIMEOUT) ;;
  arm_detector.

Definition unstage : M device bool :=
  p <- assert_params ;;
  (if TriggerMode_eq (trigger_mode p) FREE_RUN then
     issue (EvLog Info "Waiting on all frames") ;;
     s <- await_value (Odin fw_num_captured) (VInt (full_number_of_images p)) ;;
     wait hw s (Some 30%Z) ;;
     issue (EvLog Info "Stopping Odin") ;;
     issue (EvCall odin_stop) ;;
     wait hw SOdinStop (Some 5%Z)
   else ret tt) ;;
  sig_put (Odin fw_start_timeout) (VInt 1) ;;
  issue (EvLog Info "Waiting on filewriter to finish") ;;
  d <- get_self ;;
  match filewriters_finished d with
  | None => raise AttributeError
  | Some finished =>
      wait hw finished (Some 30%Z) ;;
      issue (EvLog Info "Disarming detector") ;;
      disarm_detector ;;
      h <- get_history ;;
      let status_ok := check_odin_state hw h in
      disable_roi_mode ;;
      ret status_ok
  end.

(** [EigerDetector.with_params], on a freshly made device. *)
Definition with_params (params : option DetectorParams) : M device unit :=
  set_detector_parameters params.

End Device.

(** *** Reading the history of the detector *)

(** What [set_num_triggers_and_captures] issues after the image count. *)
Definition trigger_and_capture_counts (p : DetectorParams) : history :=
  match trigger_mode p with
  | FREE_RUN =>
      [EvSet (Cam cam_num_triggers) (VInt 1000000);
       EvSet (Odin fw_num_capture) (VInt 0)]
  | SET_FRAMES =>
      [EvSet (Cam cam_num_triggers) (VInt (num_triggers p));
       EvSet (Odin fw_num_capture)
             (VInt (num_triggers p * num_images_per_trigger p))]
  end.

(** The geometry [change_roi_mode] writes. *)
Definition roi_dimensions (enable : bool) (consts : DetectorSizeConstants)
  : DetectorSize :=
  if enable then roi_size_pixels consts else det_size_pixels consts.

(** The five geometry writes of [change_roi_mode] and their composite. *)
Definition roi_writes (enable : bool) (d : DetectorSize) : history :=
  [EvSet (Cam cam_roi_mode) (VInt (if enable then 1 else 0));
   EvSet (Odin fw_image_height) (VInt (height d));
   EvSet (Odin fw_image_width) (VInt (width d));
   EvSet (Odin fw_num_row_chunks) (VInt (height d));
   EvSet (Odin fw_num_col_chunks) (VInt (width d))].

Definition roi_composite (enable : bool) (d : DetectorSize) : status :=
  SAnd (SAnd (SAnd (SAnd (SSet (Cam cam_roi_mode) (VInt (if enable then 1 else 0)))
                         (SSet (Odin fw_image_height) (VInt (height d))))
                   (SSet (Odin fw_image_width) (VInt (width d))))
             (SSet (Odin fw_num_row_chunks) (VInt (height d))))
       (SSet (Odin fw_num_col_chunks) (VInt (width d))).

(** A computation that, started with [detector_params] set, fails no
    assertion and leaves [detector_params] as it found it. *)
Definition params_safe {A} (c : M device A) : Prop :=
  forall w p,
    detector_params (self w) = Some p ->
    fst (c w) <> Raise AssertionError
    /\ detector_params (self (snd (c w))) = Some p.

(** The calls a client makes between two [set_detector_parameters]; a fault
    of one is the client's to handle, the device stays as the call left it. *)
Inductive call := Stage | Unstage.

Definition run_call (hw : hardware) (c : call) (w : world device)
  : world device :=
  match c with
  | Stage => snd (stage hw w)
  | Unstage => snd (unstage hw w)
  end.

Definition run_calls (hw : hardware) (cs : list call) (w : world device)
  : world device :=
  fold_left (fun w c => run_call hw c w) cs w.

(** *** Example parameters and hardware *)

Definition test_size_constants : DetectorSizeConstants := {|
  det_size_pixels := {| width := 4148; height := 4362 |};
  roi_size_pixels := {| width := 2068; height := 2162 |}
|}.

Definition test_converter : BeamConverter := fun _ => (1, 2)%float.

Definition test_params : DetectorParams := {|
  current_energy := 100;
  exposure_time := 1;
  directory := "/test/dir/";
  prefix := "test";
  run_number := 0;
  detector_distance := 1;
  omega_start := 0;
  omega_increment := 1;
  num_images_per_trigger := 3;
  num_triggers := 3;
  use_roi_mode := true;
  det_dist_to_beam_converter_path := "tests/devices/unit_tests/test_lookup_table.txt";
  detector_size_constants := Some test_size_constants;
  beam_xy_converter := Some test_converter;
  trigger_mode := SET_FRAMES
|}.

Definition with_constants (p : DetectorParams)
  (consts : option DetectorSizeConstants) (conv : option BeamConverter)
  : DetectorParams := {|
  current_energy := current_energy p;
  exposure_time := exposure_time p;
  directory := directory p;
  prefix := prefix p;
  run_number := run_number p;
  detector_distance := detector_distance p;
  omega_start := omega_start p;
  omega_increment := omega_increment p;
  num_images_per_trigger := num_images_per_trigger p;
  num_triggers := num_triggers p;
  use_roi_mode := use_roi_mode p;
  det_dist_to_beam_converter_path := det_dist_to_beam_converter_path p;
  detector_size_constants := consts;
  beam_xy_converter := conv;
  trigger_mode := trigger_mode p
|}.

(** No detector size and no converter. *)
Definition bare_params : DetectorParams := with_constants test_params None None.

Definition fresh : world device :=
  World {| detector_params := None; filewriters_finished := None |} [].

Definition configured : world device :=
  World {| detector_params := Some test_params;
           filewriters_finished := None |} [].

(** The threshold reads 100 eV; the writer is ready; everything finishes. *)
Definition healthy_hw : hardware := {|
  read_float := fun _ s =>
    match s with
    | Cam cam_photon_energy => 100%float
    | _ => 0%float
    end;
  read_int := fun _ s => match s with bit_depth => 32%Z | _ => 0%Z end;
  resolve := fun _ _ _ => DoneOk;
  success_flag := fun _ _ => true;
  check_odin_initialised := fun _ => (true, EmptyString);
  check_odin_state := fun _ => true
|}.

(** As [healthy_hw], but the writer never acknowledges its image height:
    every composite that holds this write is still pending at its deadline. *)
Fixpoint holds_image_height (st : status) : bool :=
  match st with
  | SSet (Odin fw_image_height) _ => true
  | SAnd l r => holds_image_height l || holds_image_height r
  | _ => false
  end.

Definition roi_stuck_hw : hardware := {|
  read_float := read_float healthy_hw;
  read_int := read_int healthy_hw;
  resolve := fun _ st _ => if holds_image_height st then Pending else DoneOk;
  success_flag := fun _ st => negb (holds_image_height st);
  check_odin_initialised := check_odin_initialised healthy_hw;
  check_odin_state := check_odin_state healthy_hw
|}.

(** As [healthy_hw], but every wait returns on a status that does not report
    success (the unit test's patched [wait]). *)
Definition unsuccessful_hw : hardware := {|
  read_float := read_float healthy_hw;
  read_int := read_int healthy_hw;
  resolve := resolve healthy_hw;
  success_flag := fun _ _ => false;
  check_odin_initialised := check_odin_initialised healthy_hw;
  check_odin_state := check_odin_state healthy_hw
|}.

Definition free_run_params : DetectorParams := {|
  current_energy := current_energy test_params;
  exposure_time := exposure_time test_params;
  directory := directory test_params;
  prefix := prefix test_params;
  run_number := run_number test_params;
  detector_distance := detector_distance test_params;
  omega_start := omega_start test_params;
  omega_increment := omega_increment test_params;
  num_images_per_trigger := 7;
  num_triggers := 5;
  use_roi_mode := false;
  det_dist_to_beam_converter_path := det_dist_to_beam_converter_path test_params;
  detector_size_constants := detector_size_constants test_params;
  beam_xy_converter := beam_xy_converter test_params;
  trigger_mode := FREE_RUN
|}.

Definition free_running : world device :=
  World {| detector_params := Some free_run_params;
           filewriters_finished := None |} [].

(** As [healthy_hw], with a writer that reports it is not initialised. *)
Definition uninitialised_hw : hardware := {|
  read_float := read_float healthy_hw;
  read_int := read_int healthy_hw;
  resolve := resolve healthy_hw;
  success_flag := success_flag healthy_hw;
  check_odin_initialised := fun _ => (false, "Test error"%string);
  check_odin_state := check_odin_state healthy_hw
|}.

(** As [healthy_hw], with no reading of the photon energy (NaN). *)
Definition blind_energy_hw : hardware := {|
  read_float := fun _ _ => PrimFloat.nan;
  read_int := read_int healthy_hw;
  resolve := resolve healthy_hw;
  success_flag := success_flag healthy_hw;
  check_odin_initialised := check_odin_initialised healthy_hw;
  check_odin_state := check_odin_state healthy_hw
|}.

End Eiger.

(** ** Reading a history: monitors *)

Module History.
Import Ophyd Eiger.

(** A wait that did not find its status finished. *)
Definition failed_wait (e : event) : bool :=
  match e with
  | EvWait _ _ DoneOk => false
  | EvWait _ _ _ => true
  | _ => false
  end.

(** A wait without deadline. *)
Definition unbounded_wait (e : event) : bool :=
  match e with
  | EvWait _ None _ => true
  | _ => false
  end.

(** The faults a [wait] raises. *)
Definition is_wait_fault (e : exn) : bool :=
  match e with
  | WaitTimeoutError | StatusFailure => true
  | _ => false
  end.

(** A monitor reads a history operation by operation and gives up ([None])
    on the first one its state forbids. *)
Record monitor := Monitor {
  state : Type;
  step : state -> event -> option state
}.

Fixpoint run (m : monitor) (s : state m) (h : history) : option (state m) :=
  match h with
  | [] => Some s
  | e :: h' =>
      match step m s e with
      | Some s' => run m s' h'
      | None => None
      end
  end.

(** After a failed wait: nothing.  The state tells whether a wait failed;
    a wait without deadline is forbidden. *)
Definition fault_monitor : monitor :=
  Monitor bool
    (fun failed e =>
       if failed then None
       else if unbounded_wait e then None
       else Some (failed_wait e)).

(** [P] only after [Qs], in this order.  The state is what of [Qs] is still
    to come. *)
Definition chain_monitor (P : event -> bool) : monitor :=
  Monitor (list (event -> bool))
    (fun Qs e =>
       if P e then match Qs with [] => Some [] | _ :: _ => None end
       else match Qs with
            | [] => Some []
            | Q :: Qs' => Some (if Q e then Qs' else Qs)
            end).

(** Never [P]. *)
Definition never_monitor (P : event -> bool) : monitor :=
  Monitor unit (fun _ e => if P e then None else Some tt).

(** [h] holds operations that satisfy [Qs], one after the other. *)
Fixpoint ordered (Qs : list (event -> bool)) (h : history) : Prop :=
  match Qs with
  | [] => True
  | Q :: Qs' =>
      exists before q after,
        h = before ++ q :: after /\ Q q = true /\ ordered Qs' after
  end.

(** What a method does to a monitor started in state [s], on every device
    that satisfies [I]: it only adds to the history, keeps [I], never
    blocks for ever, and the monitor accepts what it added; it ends in
    state [s1] when the method returns, and in a state that [E] allows for
    the fault when it raises. *)
Definition observed (m : monitor) (I : device -> Prop)
  (E : exn -> state m -> Prop) {A} (s : state m) (c : M device A)
  (s1 : state m) : Prop :=
  forall w,
    I (self w) ->
    exists new,
      trace (snd (c w)) = trace w ++ new
      /\ I (self (snd (c w)))
      /\ match fst (c w) with
         | Ok _ => run m s new = Some s1
         | Raise e => exists s', run m s new = Some s' /\ E e s'
         | Hang => False
         end.

(** What a history looks like around the faults of waits: every wait has a
    deadline; a call that returns found every status finished; a call that
    a wait's fault ended issued that failed wait last; any other fault
    comes with no failed wait; and the call never blocks for ever. *)
Definition all_finished (h : history) : Prop :=
  forall e, In e h -> failed_wait e = false.

Definition stops_at_failed_wait {A} (r : result A) (new : history) : Prop :=
  (forall e, In e new -> unbounded_wait e = false)
  /\ match r with
     | Ok _ => all_finished new
     | Raise e =>
         if is_wait_fault e
         then exists before last,
                new = before ++ [last] /\ failed_wait last = true
                /\ all_finished before
         else all_finished new
     | Hang => False
     end.

(** *** Sets and the waits that see them finished *)

(** A wait in [h] found finished a status that [s] is part of. *)
Definition seen_finished (s : status) (h : history) : Prop :=
  exists st timeout,
    In (EvWait st timeout DoneOk) h
    /\ In s (ApertureScatterguard.leaves st).

(** Every set in [h] is followed in [h] by a wait that found it finished,
    or its status is among [held]. *)
Fixpoint watched (held : list status) (h : history) : Prop :=
  match h with
  | [] => True
  | e :: h' =>
      match e with
      | EvSet sig v =>
          In (SSet sig v) held \/ seen_finished (SSet sig v) h'
      | _ => True
      end
      /\ watched held h'
  end.

(** What a method that returns does to the statuses its caller holds: each
    set it issued it saw finished or hands back among [post], and each of
    the statuses [pre] it saw finished or leaves among [post]. *)
Definition watches {A} (pre : list status) (c : M device A)
  (post : A -> list status) : Prop :=
  forall w a w',
    c w = (Ok a, w') ->
    exists new,
      trace w' = trace w ++ new
      /\ watched (post a) new
      /\ forall s, In s pre -> In s (post a) \/ seen_finished s new.

(** *** The operations the properties of the lifecycle speak of *)

(** The deadline-60 wait on the AND of the five configuration steps. *)
Definition config_settled (e : event) : bool :=
  match e with
  | EvWait (SAnd (SAnd (SAnd (SAnd _ _) _) _) _) (Some 60%Z) DoneOk => true
  | _ => false
  end.

(** The deadline-60 wait for stale_params = 0. *)
Definition stale_cleared (e : event) : bool :=
  match e with
  | EvWait (SAwait stale_params (VInt 0%Z)) (Some 60%Z) DoneOk => true
  | _ => false
  end.

Definition data_type_forwarded (e : event) : bool :=
  match e with
  | EvPut (Odin fw_data_type) _ => true
  | _ => false
  end.

(** The deadline-10 wait on capture = 1 and meta.ready = 1. *)
Definition capture_started (e : event) : bool :=
  match e with
  | EvWait (SAnd (SSet (Odin fw_capture) (VInt 1%Z))
                 (SAwait (Odin meta_ready) (VInt 1%Z)))
      (Some 10%Z) DoneOk => true
  | _ => false
  end.

Definition acquire_started (e : event) : bool :=
  match e with
  | EvSet (Cam cam_acquire) _ => true
  | _ => false
  end.

(** A write of the ROI flag or of the writer's image geometry. *)
Definition roi_write (e : event) : bool :=
  match e with
  | EvSet (Cam cam_roi_mode) _
  | EvSet (Odin fw_image_height) _ | EvSet (Odin fw_image_width) _
  | EvSet (Odin fw_num_row_chunks) _ | EvSet (Odin fw_num_col_chunks) _ => true
  | _ => false
  end.

Definition disarmed (e : event) : bool :=
  match e with
  | EvPut (Cam cam_acquire) _ => true
  | _ => false
  end.

Definition odin_stopped (e : event) : bool :=
  match e with
  | EvCall odin_stop => true
  | _ => false
  end.

(** The deadline-10 wait on acquire = 1. *)
Definition acquire_confirmed (e : event) : bool :=
  match e with
  | EvWait (SSet (Cam cam_acquire) (VInt 1%Z)) (Some 10%Z) DoneOk => true
  | _ => false
  end.

(** The deadline-10 wait for fan.ready = 1. *)
Definition fan_ready_seen (e : event) : bool :=
  match e with
  | EvWait (SAwait (Odin fan_ready) (VInt 1%Z)) (Some 10%Z) DoneOk => true
  | _ => false
  end.

Definition start_timeout_set (e : event) : bool :=
  match e with
  | EvPut (Odin fw_start_timeout) (VInt 1%Z) => true
  | _ => false
  end.

(** A deadline-30 wait that found its status finished. *)
Definition waited_30 (e : event) : bool :=
  match e with
  | EvWait _ (Some 30%Z) DoneOk => true
  | _ => false
  end.

(** The deadline-30 wait for the writer's captured-frame counter. *)
Definition frames_captured (e : event) : bool :=
  match e with
  | EvWait (SAwait (Odin fw_num_captured) _) (Some 30%Z) DoneOk => true
  | _ => false
  end.

(** The deadline-5 wait on the status of [odin.stop]. *)
Definition stop_confirmed (e : event) : bool :=
  match e with
  | EvWait SOdinStop (Some 5%Z) DoneOk => true
  | _ => false
  end.

(** What only a free-running acquisition is unstaged with: the stop of
    Odin and the deadline-5 wait. *)
Definition free_run_only (e : event) : bool :=
  match e with
  | EvCall odin_stop => true
  | EvWait _ (Some 5%Z) _ => true
  | _ => false
  end.

Definition nothing (e : event) : bool := false.

(** The steps of arming, in the order of the code. *)
Definition arming_steps : list (event -> bool) :=
  [config_settled; stale_cleared; data_type_forwarded; capture_started].

Definition staging_steps : list (event -> bool) :=
  arming_steps ++ [acquire_started; acquire_confirmed; fan_ready_seen].

(** Devices: any; one that holds the parameters [p]; one that holds [p]
    and was armed. *)
Definition any_device (d : device) : Prop := True.

Definition holding (p : DetectorParams) (d : device) : Prop :=
  detector_params d = Some p.

Definition armed_with (p : DetectorParams) (d : device) : Prop :=
  detector_params d = Some p /\ filewriters_finished d <> None.

(** What the fault monitor's state is after a fault. *)
Definition fault_state (e : exn) (failed : bool) : Prop :=
  failed = is_wait_fault e.

Definition any_state {S : Type} (e : exn) (s : S) : Prop := True.

(** Only the faults of waits. *)
Definition wait_faults_only {S : Type} (e : exn) (s : S) : Prop :=
  is_wait_fault e = true.

End History.

(** * Theorems *)

(** ** IEEE comparison facts used by the device code *)

Module FloatFacts.

Lemma SFcompare_antisym (x y : spec_float) :
  SFcompare y x = option_map CompOpp (SFcompare x y).
Proof.
  destruct x as [sx | sx | | sx mx ex], y as [sy | sy | | sy my ey];
    try reflexivity;
    try (destruct sx; reflexivity);
    try (destruct sy; reflexivity);
    try (destruct sx, sy; reflexivity).
  cbn [SFcompare option_map].
  destruct sx, sy; try reflexivity;
    rewrite (Z.compare_antisym ex ey);
    destruct (ex ?= ey)%Z eqn:E; cbn [CompOpp]; try reflexivity;
    change PosDef.Pos.compare_cont with Pos.compare_cont;
    rewrite (Pos.compare_cont_antisym mx my Eq); reflexivity.
Qed.

(** [x <= y] excludes [y < x]; the converse fails on NaN only. *)
Lemma leb_true_ltb_false (x y : float) :
  PrimFloat.leb x y = true -> PrimFloat.ltb y x = false.
Proof.
  rewrite leb_spec, ltb_spec. unfold SFleb, SFltb.
  rewrite (SFcompare_antisym (Prim2SF x) (Prim2SF y)).
  destruct (SFcompare (Prim2SF x) (Prim2SF y)) as [[ | | ] | ];
    cbn; congruence.
Qed.

Lemma ltb_true_leb_false (x y : float) :
  PrimFloat.ltb x y = true -> PrimFloat.leb y x = false.
Proof.
  intros H. destruct (PrimFloat.leb y x) eqn:E; [ | reflexivity ].
  apply leb_true_ltb_false in E. congruence.
Qed.

(** Positive and negative zero are different floats that compare equal. *)
Lemma neg_zero_distinct : (-0)%float <> 0%float.
Proof.
  intros H. apply (f_equal Prim2SF) in H. vm_compute in H. discriminate.
Qed.

Lemma neg_zero_eqb : PrimFloat.eqb (-0)%float 0%float = true.
Proof. reflexivity. Qed.

End FloatFacts.

(** ** The safe move *)

Module SafeMove.
Import Ophyd ApertureScatterguard.

Section Proofs.
Variable hw : hardware.

(** A valid target passes the guard of [set]. *)
Lemma set_valid (positions : AperturePositions)
  (ax ay az sx sy : pyfloat) w :
  self w = Some positions ->
  position_valid positions (ax, ay, az, sx, sy) = true ->
  set hw (ax, ay, az, sx, sy) w =
    _safe_move_within_datacollection_range hw ax ay az sx sy w.
Proof.
  intros Hself Hvalid.
  unfold set, bind, try_except_AssertionError, get_self.
  rewrite Hself, Hvalid. reflexivity.
Qed.

(** Anything else is refused, the device untouched. *)
Lemma set_invalid pos w :
  match self w with
  | None => True
  | Some positions => position_valid positions pos = false
  end ->
  set hw pos w = (Raise (InvalidApertureMove "AssertionError()"), w).
Proof.
  intros H.
  unfold set, bind, try_except_AssertionError, get_self.
  destruct (self w) as [positions | ]; [ rewrite H | ]; reflexivity.
Qed.

(** The scatterguard goes first when the aperture moves up. *)
Lemma safe_move_up ax ay az sx sy w :
  truthy (read_int hw (trace w) (MotorPV aperture_z motor_done_move)) = true ->
  PrimFloat.eqb (read_float hw (trace w) (MotorPV aperture_z user_setpoint)) az
    = true ->
  PrimFloat.ltb (read_float hw (trace w) (MotorPV aperture_y user_readback)) ay
    = true ->
  let seen :=
    resolve hw (trace w ++ sg_moves sx sy) (sg_composite sx sy) None in
  _safe_move_within_datacollection_range hw ax ay az sx sy w =
    (after_wait seen
       (SAnd (SAnd (SAnd (sg_composite sx sy)
                         (SSet (Motor aperture_x) (VFloat ax)))
                   (SSet (Motor aperture_y) (VFloat ay)))
             (SSet (Motor aperture_z) (VFloat az))),
     World (self w)
       (trace w ++ sg_moves sx sy
                ++ EvWait (sg_composite sx sy) None seen
                   :: second_phase seen (ap_moves ax ay az))).
Proof.
  intros Hz Hs Hy. cbv zeta.
  unfold _safe_move_within_datacollection_range, bind, get_int, get_float.
  rewrite Hz. cbn [negb]. rewrite Hs. cbn [negb].
  unfold sig_set, bind, issue, ret, wait. cbn [trace self]. rewrite Hy.
  unfold sg_moves, ap_moves, sg_composite, ap_composite.
  cbn [trace self fate_of]. rewrite <- !app_assoc. cbn [app].
  destruct (resolve hw _ _ _); cbn [after_wait second_phase trace self];
    rewrite <- ?app_assoc; reflexivity.
Qed.

(** The aperture goes first otherwise. *)
Lemma safe_move_down ax ay az sx sy w :
  truthy (read_int hw (trace w) (MotorPV aperture_z motor_done_move)) = true ->
  PrimFloat.eqb (read_float hw (trace w) (MotorPV aperture_z user_setpoint)) az
    = true ->
  PrimFloat.ltb (read_float hw (trace w) (MotorPV aperture_y user_readback)) ay
    = false ->
  let seen :=
    resolve hw (trace w ++ ap_moves ax ay az) (ap_composite ax ay az) None in
  _safe_move_within_datacollection_range hw ax ay az sx sy w =
    (after_wait seen
       (SAnd (SAnd (ap_composite ax ay az)
                   (SSet (Motor scatterguard_x) (VFloat sx)))
             (SSet (Motor scatterguard_y) (VFloat sy))),
     World (self w)
       (trace w ++ ap_moves ax ay az
                ++ EvWait (ap_composite ax ay az) None seen
                   :: second_phase seen (sg_moves sx sy))).
Proof.
  intros Hz Hs Hy. cbv zeta.
  unfold _safe_move_within_datacollection_range, bind, get_int, get_float.
  rewrite Hz. cbn [negb]. rewrite Hs. cbn [negb].
  unfold sig_set, bind, issue, ret, wait. cbn [trace self]. rewrite Hy.
  unfold sg_moves, ap_moves, sg_composite, ap_composite.
  cbn [trace self fate_of]. rewrite <- !app_assoc. cbn [app].
  destruct (resolve hw _ _ _); cbn [after_wait second_phase trace self];
    rewrite <- ?app_assoc; reflexivity.
Qed.

(** In a two-phase history a move of the second phase comes after the
    wait that found the first phase finished, and that wait after every
    move of the first phase. *)
Lemma barrier_order first composite second new (P : event -> bool) :
  barrier first composite second new ->
  (forall e, In e first -> P e = false) ->
  (forall seen, P (EvWait composite None seen) = false) ->
  forall pre e post,
    new = pre ++ e :: post -> P e = true ->
    exists mid, pre = first ++ EvWait composite None DoneOk :: mid.
Proof.
  intros [seen ->] Hfirst Hwait.
  induction first as [ | f first IH]; intros pre e post Heq He.
  - destruct pre as [ | p pre]; cbn in Heq; injection Heq as <- Hrest.
    + rewrite Hwait in He. discriminate.
    + destruct seen; try (destruct pre; discriminate).
      exists pre. reflexivity.
  - destruct pre as [ | p pre]; cbn in Heq; injection Heq as <- Hrest.
    + rewrite (Hfirst f (or_introl eq_refl)) in He. discriminate.
    + destruct (IH (fun x Hx => Hfirst x (or_intror Hx)) pre e post Hrest He)
        as [mid ->].
      exists mid. reflexivity.
Qed.

(** Read as an order of calls: an aperture move is issued only after the wait
    that found the scatterguard composite finished, itself issued after both
    scatterguard moves. *)
Lemma aperture_after_scatterguard ax ay az sx sy new pre e post :
  barrier (sg_moves sx sy) (sg_composite sx sy) (ap_moves ax ay az) new ->
  new = pre ++ e :: post -> moves is_aperture e = true ->
  exists mid,
    pre = sg_moves sx sy ++ EvWait (sg_composite sx sy) None DoneOk :: mid.
Proof.
  intros Hb. apply (barrier_order _ _ _ _ (moves is_aperture) Hb).
  - intros f [<- | [<- | []]]; reflexivity.
  - reflexivity.
Qed.

(** And the reverse when the aperture goes first. *)
Lemma scatterguard_after_aperture ax ay az sx sy new pre e post :
  barrier (ap_moves ax ay az) (ap_composite ax ay az) (sg_moves sx sy) new ->
  new = pre ++ e :: post -> moves is_scatterguard e = true ->
  exists mid,
    pre = ap_moves ax ay az
          ++ EvWait (ap_composite ax ay az) None DoneOk :: mid.
Proof.
  intros Hb. apply (barrier_order _ _ _ _ (moves is_scatterguard) Hb).
  - intros f [<- | [<- | [<- | []]]]; reflexivity.
  - reflexivity.
Qed.


(** C7: while the aperture z axis does not report motion-complete the safe
    move is a no-op: it returns nothing, raises nothing and leaves the
    device and its history as they were, also when reached through [set];
    so a fault or any new operation means z reported motion-complete. *)
Theorem safe_move_waits_for_z (ax ay az sx sy : pyfloat) w :
  let moving :=
    truthy (read_int hw (trace w) (MotorPV aperture_z motor_done_move))
    = false in
  (moving ->
   _safe_move_within_datacollection_range hw ax ay az sx sy w = (Ok None, w))
  /\ (forall positions,
        self w = Some positions ->
        position_valid positions (ax, ay, az, sx, sy) = true ->
        moving -> set hw (ax, ay, az, sx, sy) w = (Ok None, w))
  /\ (forall r w',
        _safe_move_within_datacollection_range hw ax ay az sx sy w = (r, w') ->
        r <> Ok None \/ w' <> w ->
        truthy (read_int hw (trace w) (MotorPV aperture_z motor_done_move))
        = true).
Proof.
  intros moving.
  assert (Hnoop : moving ->
    _safe_move_within_datacollection_range hw ax ay az sx sy w = (Ok None, w)).
  { intros Hz.
    unfold _safe_move_within_datacollection_range, bind, get_int.
    unfold moving in Hz. rewrite Hz. reflexivity. }
  split; [ exact Hnoop | split ].
  - intros positions Hself Hvalid Hz.
    rewrite (set_valid positions _ _ _ _ _ _ Hself Hvalid). exact (Hnoop Hz).
  - intros r w' Hrun Hdiff.
    destruct (truthy _) eqn:Hz in |- *; [ reflexivity | exfalso ].
    rewrite (Hnoop Hz) in Hrun. injection Hrun as <- <-.
    destruct Hdiff as [H | H]; apply H; reflexivity.
Qed.

Lemma tuple_in_true pos l :
  tuple_in pos l = true <-> exists p, In p l /\ tuple_eq p pos = true.
Proof. unfold tuple_in. apply existsb_exists. Qed.

Lemma tuple_in_false pos l :
  tuple_in pos l = false <-> forall p, In p l -> tuple_eq p pos = false.
Proof.
  unfold tuple_in. rewrite <- not_true_iff_false, existsb_exists. split.
  - intros H p Hp. destruct (tuple_eq p pos) eqn:E; [ | reflexivity ].
    exfalso. apply H. exists p. split; assumption.
  - intros H [p [Hp E]]. rewrite (H p Hp) in E. discriminate.
Qed.

Lemma position_valid_tuple_in positions pos :
  position_valid positions pos = tuple_in pos (preset_list positions).
Proof.
  unfold position_valid, preset_list.
  destruct (tuple_in pos _); reflexivity.
Qed.

Lemma item_eq_refl (a : pyfloat) : item_eq a a = true.
Proof. unfold item_eq, same_object. rewrite N.eqb_refl. reflexivity. Qed.

(** A tuple compares equal to itself, whatever its numbers. *)
Lemma tuple_eq_refl (pos : position) : tuple_eq pos pos = true.
Proof.
  destruct pos as [[[[ax ay] az] sx] sy]. unfold tuple_eq.
  rewrite !item_eq_refl. reflexivity.
Qed.

(** C2, amended: [set] refuses, with [InvalidApertureMove] and the device
    and its history untouched, when no preset table is loaded or when no
    preset compares equal to the target as [in] compares tuples (component
    by component: the same object, or [==] as numbers); it goes on to the
    safe move when some preset compares equal to the target, and so for
    each of the four preset tuples of the table. *)
Theorem set_checks_presets pos w :
  ((self w = None
    \/ exists positions,
         self w = Some positions
         /\ forall p, In p (preset_list positions) -> tuple_eq p pos = false) ->
   set hw pos w = (Raise (InvalidApertureMove "AssertionError()"), w))
  /\ (forall positions,
        self w = Some positions ->
        (exists p, In p (preset_list positions) /\ tuple_eq p pos = true) ->
        set hw pos w =
          let '(ax, ay, az, sx, sy) := pos in
          _safe_move_within_datacollection_range hw ax ay az sx sy w)
  /\ (forall positions,
        self w = Some positions ->
        In pos (preset_list positions) ->
        set hw pos w =
          let '(ax, ay, az, sx, sy) := pos in
          _safe_move_within_datacollection_range hw ax ay az sx sy w).
Proof.
  assert (Hgo : forall positions,
    self w = Some positions ->
    (exists p, In p (preset_list positions) /\ tuple_eq p pos = true) ->
    set hw pos w =
      let '(ax, ay, az, sx, sy) := pos in
      _safe_move_within_datacollection_range hw ax ay az sx sy w).
  { intros positions Hself Hex. destruct pos as [[[[ax ay] az] sx] sy].
    apply (set_valid positions); [ assumption | ].
    rewrite position_valid_tuple_in. apply tuple_in_true. exact Hex. }
  split; [ | split ].
  - intros H. apply set_invalid.
    destruct H as [-> | [positions [-> Hnone]]]; [ exact I | ].
    rewrite position_valid_tuple_in. apply tuple_in_false. exact Hnone.
  - exact Hgo.
  - intros positions Hself Hin. apply (Hgo positions Hself).
    exists pos. split; [ exact Hin | apply tuple_eq_refl ].
Qed.

End Proofs.

Ltac float_differ H :=
  apply (f_equal Prim2SF) in H; vm_compute in H; discriminate H.


(** Aperture y reads 10 and MEDIUM asks for 5: aperture first. *)
Example safe_move_down_run :
  set still_hw (MEDIUM presets) loaded =
    (Ok (Some (SAnd (SAnd (ap_composite 1 5 2)
                          (SSet (Motor scatterguard_x) (VFloat 3)))
                    (SSet (Motor scatterguard_y) (VFloat 5)))),
     World (Some presets)
       (ap_moves 1 5 2 ++ EvWait (ap_composite 1 5 2) None DoneOk
                          :: sg_moves 3 5)).
Proof. reflexivity. Qed.

(** Without a preset table nothing is accepted. *)
Example set_without_presets :
  set still_hw (LARGE presets) unloaded =
    (Raise (InvalidApertureMove "AssertionError()"), unloaded).
Proof. reflexivity. Qed.

Lemma safe_move_waits_for_z_witness :
  set moving_hw (LARGE presets) loaded = (Ok None, loaded).
Proof.
  apply (proj1 (proj2 (safe_move_waits_for_z moving_hw (PyFloat 1 0)
                         (PyFloat 2 20) (PyFloat 3 2) (PyFloat 4 3)
                         (PyFloat 5 4) loaded))
           presets); reflexivity.
Defined.

Lemma set_checks_presets_witness :
  set still_hw (LARGE presets) loaded =
    _safe_move_within_datacollection_range still_hw 0 20 2 3 4 loaded.
Proof.
  apply (proj2 (proj2 (set_checks_presets still_hw (LARGE presets) loaded))
           presets).
  - reflexivity.
  - left. reflexivity.
Defined.

(** C2 as stated fails: a target whose first number is the negative zero
    is bit for bit none of the four presets, yet [set] takes it for LARGE and
    moves the motors. *)
Lemma set_accepts_negative_zero :
  numbers large_negative_zero <> numbers (LARGE presets)
  /\ numbers large_negative_zero <> numbers (MEDIUM presets)
  /\ numbers large_negative_zero <> numbers (SMALL presets)
  /\ numbers large_negative_zero <> numbers (ROBOT_LOAD presets)
  /\ set still_hw large_negative_zero loaded =
       (Ok (Some (SAnd (SAnd (SAnd (sg_composite 3 4)
                                   (SSet (Motor aperture_x) (VFloat (-0))))
                             (SSet (Motor aperture_y) (VFloat 20)))
                       (SSet (Motor aperture_z) (VFloat 2)))),
        World (Some presets)
          (sg_moves 3 4 ++ EvWait (sg_composite 3 4) None DoneOk
                           :: ap_moves (-0) 20 2)).
Proof.
  repeat split;
    intros H;
    apply (f_equal (fun n : float * float * float * float * float =>
                      let '(ax, _, _, _, _) := n in ax)) in H;
    float_differ H.
Qed.

(** A preset that holds a NaN, passed as the tuple the table holds, is
    accepted: the aperture moves first, to the NaN that was asked for. *)
Example set_accepts_own_nan_preset :
  set still_hw (LARGE nan_presets) nan_loaded =
    (Ok (Some (SAnd (SAnd (ap_composite 0 PrimFloat.nan 2)
                          (SSet (Motor scatterguard_x) (VFloat 3)))
                    (SSet (Motor scatterguard_y) (VFloat 4)))),
     World (Some nan_presets)
       (ap_moves 0 PrimFloat.nan 2
          ++ EvWait (ap_composite 0 PrimFloat.nan 2) None DoneOk
             :: sg_moves 3 4)).
Proof. reflexivity. Qed.

(** A tuple of other objects with the same five numbers is refused. *)
Example set_refuses_copied_nan_preset :
  numbers nan_large_copy = numbers (LARGE nan_presets)
  /\ set still_hw nan_large_copy nan_loaded =
       (Raise (InvalidApertureMove "AssertionError()"), nan_loaded).
Proof. split; reflexivity. Qed.

End SafeMove.

(** ** The detector *)

Module Detector.
Import Ophyd Eiger.

Section Proofs.
Variable hw : hardware.

(** The whole run of [set_num_triggers_and_captures] once the parameters
    are set. *)
Lemma set_num_triggers_and_captures_run p w :
  detector_params (self w) = Some p ->
  exists st,
    set_num_triggers_and_captures w =
      (Ok st,
       World (self w)
         (trace w ++ EvSet (Cam cam_num_images) (VInt (num_images_per_trigger p))
                     :: trigger_and_capture_counts p)).
Proof.
  intros Hp.
  unfold set_num_triggers_and_captures, assert_params, bind, get_self.
  rewrite Hp. unfold trigger_and_capture_counts, full_number_of_images.
  cbn [sig_set bind issue ret trace self].
  destruct (trigger_mode p);
    cbn [TriggerMode_eq trace self]; unfold ret;
    rewrite <- !app_assoc; eexists; reflexivity.
Qed.

(** C3: with FREE_RUN the camera trigger count is set to 1,000,000 and the
    writer capture count to 0, whatever the image counts of the parameters;
    with SET_FRAMES the trigger count is set to num_triggers and the
    capture count to num_triggers x num_images_per_trigger. *)
Theorem set_num_triggers_and_captures_counts p w :
  detector_params (self w) = Some p ->
  let image_count :=
    EvSet (Cam cam_num_images) (VInt (num_images_per_trigger p)) in
  exists st,
    fst (set_num_triggers_and_captures w) = Ok st
    /\ (trigger_mode p = FREE_RUN ->
        trace (snd (set_num_triggers_and_captures w)) =
          trace w ++ [image_count;
                      EvSet (Cam cam_num_triggers) (VInt 1000000);
                      EvSet (Odin fw_num_capture) (VInt 0)])
    /\ (trigger_mode p = SET_FRAMES ->
        trace (snd (set_num_triggers_and_captures w)) =
          trace w ++ [image_count;
                      EvSet (Cam cam_num_triggers) (VInt (num_triggers p));
                      EvSet (Odin fw_num_capture)
                        (VInt (num_triggers p * num_images_per_trigger p))]).
Proof.
  intros Hp image_count.
  destruct (set_num_triggers_and_captures_run p w Hp) as [st Hrun].
  exists st. rewrite Hrun. cbn [fst snd trace].
  unfold trigger_and_capture_counts.
  split; [ reflexivity | ].
  split; intros ->; reflexivity.
Qed.

(** C9: in either trigger mode, FREE_RUN included, the first operation
    [set_num_triggers_and_captures] issues is the write of the camera's
    image count, with num_images_per_trigger; the trigger and capture
    counts follow it. *)
Theorem set_num_triggers_and_captures_image_count_first p w :
  detector_params (self w) = Some p ->
  exists rest,
    trace (snd (set_num_triggers_and_captures w)) =
      trace w ++ EvSet (Cam cam_num_images) (VInt (num_images_per_trigger p))
                 :: rest
    /\ (trigger_mode p = FREE_RUN ->
        rest = [EvSet (Cam cam_num_triggers) (VInt FREE_RUN_MAX_IMAGES);
                EvSet (Odin fw_num_capture) (VInt 0)]).
Proof.
  intros Hp.
  destruct (set_num_triggers_and_captures_run p w Hp) as [st Hrun].
  exists (trigger_and_capture_counts p). rewrite Hrun. cbn [snd trace].
  split; [ reflexivity | ].
  unfold trigger_and_capture_counts. intros ->. reflexivity.
Qed.

Lemma set_detector_threshold_within energy tolerance (w : world device) :
  PrimFloat.leb
    (PrimFloat.abs
       (PrimFloat.sub (read_float hw (trace w) (Cam cam_photon_energy)) energy))
    tolerance = true ->
  set_detector_threshold hw energy tolerance w = (Ok SFinished, w).
Proof.
  intros H. apply FloatFacts.leb_true_ltb_false in H.
  unfold set_detector_threshold, bind, get_float. rewrite H. reflexivity.
Qed.

Lemma set_detector_threshold_beyond energy tolerance (w : world device) :
  PrimFloat.ltb tolerance
    (PrimFloat.abs
       (PrimFloat.sub (read_float hw (trace w) (Cam cam_photon_energy)) energy))
    = true ->
  set_detector_threshold hw energy tolerance w =
    (Ok (SSet (Cam cam_photon_energy) (VFloat energy)),
     World (self w) (trace w ++ [EvSet (Cam cam_photon_energy) (VFloat energy)])).
Proof.
  intros H.
  unfold set_detector_threshold, bind, get_float. rewrite H. reflexivity.
Qed.

(** C4: with the default tolerance of 0.1 eV, when the current reading is
    within the tolerance of the requested energy [set_detector_threshold]
    writes nothing and returns a status that is already finished and
    successful; when it is further away it issues exactly one write, of
    the requested energy. *)
Theorem set_detector_threshold_tolerance energy (w : world device) :
  let current_energy := read_float hw (trace w) (Cam cam_photon_energy) in
  let delta := PrimFloat.abs (PrimFloat.sub current_energy energy) in
  (PrimFloat.leb delta default_tolerance = true ->
   set_detector_threshold hw energy default_tolerance w = (Ok SFinished, w)
   /\ (forall h timeout, fate_of hw h SFinished timeout = DoneOk)
   /\ (forall w' : world device, fst (success hw SFinished w') = Ok true))
  /\ (PrimFloat.ltb default_tolerance delta = true ->
      set_detector_threshold hw energy default_tolerance w =
        (Ok (SSet (Cam cam_photon_energy) (VFloat energy)),
         World (self w)
           (trace w ++ [EvSet (Cam cam_photon_energy) (VFloat energy)]))).
Proof.
  intros current_energy delta. split.
  - intros H. split; [ | split ].
    + apply set_detector_threshold_within. exact H.
    + reflexivity.
    + reflexivity.
  - intros H. apply set_detector_threshold_beyond. exact H.
Qed.

(** What [set_detector_parameters] leaves behind, whatever it returns. *)
Lemma set_detector_parameters_stores params (w : world device) :
  snd (set_detector_parameters params w) =
    World {| detector_params := params;
             filewriters_finished := filewriters_finished (self w) |}
          (trace w).
Proof.
  unfold set_detector_parameters, bind, assign_detector_params, get_self.
  cbn [self detector_params].
  destruct params as [p | ]; [ | reflexivity ].
  destruct (detector_size_constants p), (beam_xy_converter p); reflexivity.
Qed.

(** C5: [set_detector_parameters] checks both constants and reports every
    one that is missing in a single message: two lines when the detector
    size and the beam converter are both missing, one line when exactly
    one is, and no fault when neither is.  It issues no hardware
    operation at all. *)
Theorem set_detector_parameters_aggregates p (w : world device) :
  trace (snd (set_detector_parameters (Some p) w)) = trace w
  /\ match detector_size_constants p, beam_xy_converter p with
     | None, None =>
         exists msg,
           fst (set_detector_parameters (Some p) w) = Raise (PyException msg)
           /\ number_of_lines msg = 2
     | None, Some _ | Some _, None =>
         exists msg,
           fst (set_detector_parameters (Some p) w) = Raise (PyException msg)
           /\ number_of_lines msg = 1
     | Some _, Some _ => fst (set_detector_parameters (Some p) w) = Ok tt
     end.
Proof.
  split.
  - rewrite set_detector_parameters_stores. reflexivity.
  - unfold set_detector_parameters, bind, assign_detector_params, get_self.
    cbn [self detector_params].
    destruct (detector_size_constants p), (beam_xy_converter p);
      cbn [is_None filter map fst snd];
      try reflexivity; eexists; split; reflexivity.
Qed.

(** C6, amended: when [set_detector_parameters] raises, it has issued no
    hardware operation and left every attribute other than
    [detector_params] as it was; [detector_params] holds the parameters it
    was called with. *)
Theorem set_detector_parameters_fault_state params (w : world device) e w' :
  set_detector_parameters params w = (Raise e, w') ->
  trace w' = trace w
  /\ filewriters_finished (self w') = filewriters_finished (self w)
  /\ detector_params (self w') = params.
Proof.
  intros Hrun.
  pose proof (set_detector_parameters_stores params w) as Hstore.
  rewrite Hrun in Hstore. cbn [snd] in Hstore. subst w'.
  repeat split.
Qed.

(** *** [detector_params] across the methods *)

Lemma safe_ret {A} (a : A) : params_safe (ret a).
Proof. intros w p Hp. split; [ discriminate | exact Hp ]. Qed.

Lemma safe_bind {A B} (c : M device A) (k : A -> M device B) :
  params_safe c -> (forall a, params_safe (k a)) -> params_safe (bind c k).
Proof.
  intros Hc Hk w p Hp. destruct (Hc w p Hp) as [Hfault Hkeep].
  unfold bind. destruct (c w) as [[a | e | ] w1]; cbn [fst snd] in *.
  - apply Hk. exact Hkeep.
  - split; [ | assumption ].
    intros H. apply Hfault. injection H as ->. reflexivity.
  - split; [ discriminate | assumption ].
Qed.

Lemma safe_raise {A} e : e <> AssertionError -> params_safe (@raise device A e).
Proof. intros He w p Hp. split; [ cbn; congruence | exact Hp ]. Qed.

Lemma safe_issue ev : params_safe (issue ev).
Proof. intros w p Hp. split; [ discriminate | exact Hp ]. Qed.

Lemma safe_get_self : params_safe get_self.
Proof. intros w p Hp. split; [ discriminate | exact Hp ]. Qed.

Lemma safe_get_history : params_safe get_history.
Proof. intros w p Hp. split; [ discriminate | exact Hp ]. Qed.

Lemma safe_get_float s : params_safe (get_float hw s).
Proof. intros w p Hp. split; [ discriminate | exact Hp ]. Qed.

Lemma safe_get_int s : params_safe (get_int hw s).
Proof. intros w p Hp. split; [ discriminate | exact Hp ]. Qed.

Lemma safe_sig_set s v : params_safe (sig_set s v).
Proof. intros w p Hp. split; [ discriminate | exact Hp ]. Qed.

Lemma safe_sig_put s v : params_safe (sig_put s v).
Proof. intros w p Hp. split; [ discriminate | exact Hp ]. Qed.

Lemma safe_await_value s v : params_safe (await_value s v).
Proof. intros w p Hp. split; [ discriminate | exact Hp ]. Qed.

Lemma safe_success st : params_safe (success hw st).
Proof. intros w p Hp. split; [ discriminate | exact Hp ]. Qed.

Lemma safe_wait st timeout : params_safe (wait hw st timeout).
Proof.
  intros w p Hp. unfold wait.
  destruct (fate_of hw (trace w) st timeout); [ | | destruct timeout ];
    (split; [ discriminate | exact Hp ]).
Qed.

Lemma safe_assign_filewriters_finished st :
  params_safe (assign_filewriters_finished st).
Proof. intros w p Hp. split; [ discriminate | exact Hp ]. Qed.

Lemma safe_assert_params : params_safe assert_params.
Proof.
  intros w p Hp. unfold assert_params, bind, get_self. rewrite Hp.
  split; [ discriminate | exact Hp ].
Qed.

Lemma safe_params_attr : params_safe params_attr.
Proof.
  intros w p Hp. unfold params_attr, bind, get_self. rewrite Hp.
  split; [ discriminate | exact Hp ].
Qed.

Create HintDb params_safe discriminated.
Hint Resolve safe_ret safe_issue safe_get_self safe_get_history
  safe_get_float safe_get_int safe_sig_set safe_sig_put safe_await_value
  safe_success safe_wait safe_assign_filewriters_finished safe_assert_params
  safe_params_attr : params_safe.

(** Walks a method body: binds, branches, then the leaves. *)
Ltac params_safe_step :=
  match goal with
  | |- params_safe (bind _ _) => apply safe_bind; [ | intros ? ]
  | |- params_safe (raise _) => apply safe_raise; discriminate
  | |- params_safe (if ?b then _ else _) => destruct b
  | |- params_safe (match ?x with _ => _ end) => destruct x
  | |- params_safe _ => solve [ auto with params_safe ]
  end.

Ltac params_safe_body := repeat params_safe_step.

Lemma safe_change_roi_mode enable : params_safe (change_roi_mode hw enable).
Proof. unfold change_roi_mode. params_safe_body. Qed.

Lemma safe_set_detector_threshold energy tolerance :
  params_safe (set_detector_threshold hw energy tolerance).
Proof. unfold set_detector_threshold. params_safe_body. Qed.

Lemma safe_set_cam_pvs : params_safe set_cam_pvs.
Proof. unfold set_cam_pvs. params_safe_body. Qed.

Lemma safe_set_odin_pvs : params_safe (set_odin_pvs hw).
Proof. unfold set_odin_pvs. params_safe_body. Qed.

Lemma safe_set_mx_settings_pvs : params_safe set_mx_settings_pvs.
Proof.
  unfold set_mx_settings_pvs, get_beam_position_pixels. params_safe_body.
Qed.

Lemma safe_set_num_triggers_and_captures :
  params_safe set_num_triggers_and_captures.
Proof. unfold set_num_triggers_and_captures. params_safe_body. Qed.

Lemma safe_arm_detector : params_safe (arm_detector hw).
Proof.
  unfold arm_detector, wait_for_stale_parameters,
    forward_bit_depth_to_filewriter.
  params_safe_body.
Qed.

Hint Resolve safe_change_roi_mode safe_set_detector_threshold
  safe_set_cam_pvs safe_set_odin_pvs safe_set_mx_settings_pvs
  safe_set_num_triggers_and_captures safe_arm_detector : params_safe.

Lemma safe_stage : params_safe (stage hw).
Proof. unfold stage, enable_roi_mode. params_safe_body. Qed.

Lemma safe_unstage : params_safe (unstage hw).
Proof.
  unfold unstage, disable_roi_mode, disarm_detector. params_safe_body.
Qed.

Lemma run_calls_keep_params calls : forall w p,
  detector_params (self w) = Some p ->
  detector_params (self (run_calls hw calls w)) = Some p.
Proof.
  unfold run_calls.
  induction calls as [ | c calls IH]; intros w p Hp; cbn [fold_left].
  - exact Hp.
  - apply IH. destruct c; cbn [run_call].
    + apply safe_stage. exact Hp.
    + apply safe_unstage. exact Hp.
Qed.

(** C10: called while [detector_params] is [None], [unstage] fails its
    assertion at once, with nothing issued and no boolean returned.  After
    a [set_detector_parameters] that succeeded, and however many [stage]
    and [unstage] calls since, [detector_params] is set and [unstage]
    fails no assertion. *)
Theorem unstage_requires_params :
  (forall w,
      detector_params (self w) = None ->
      unstage hw w = (Raise AssertionError, w))
  /\ (forall params w0 w1 calls,
        set_detector_parameters params w0 = (Ok tt, w1) ->
        detector_params (self (run_calls hw calls w1)) <> None
        /\ fst (unstage hw (run_calls hw calls w1)) <> Raise AssertionError).
Proof.
  split.
  - intros w Hnone. unfold unstage, assert_params, bind, get_self.
    rewrite Hnone. reflexivity.
  - intros params w0 w1 calls Hrun.
    pose proof (set_detector_parameters_stores params w0) as Hstore.
    rewrite Hrun in Hstore. cbn [snd] in Hstore.
    destruct params as [p | ].
    + assert (Hp : detector_params (self w1) = Some p) by (subst; reflexivity).
      pose proof (run_calls_keep_params calls w1 p Hp) as Hkeep.
      split; [ congruence | ].
      apply (safe_unstage _ p Hkeep).
    + discriminate Hrun.
Qed.

(** *** The ROI switch *)

(** When the wait on the five writes returns, an unsuccessful status is
    logged and nothing more: the method returns normally either way. *)
Lemma change_roi_mode_logs_only enable p consts (w : world device) :
  detector_params (self w) = Some p ->
  detector_size_constants p = Some consts ->
  let d := roi_dimensions enable consts in
  let waited :=
    trace w ++ roi_writes enable d
            ++ [EvWait (roi_composite enable d) (Some 10%Z) DoneOk] in
  resolve hw (trace w ++ roi_writes enable d) (roi_composite enable d)
    (Some 10%Z) = DoneOk ->
  change_roi_mode hw enable w =
    (Ok tt,
     World (self w)
       (waited ++ if success_flag hw waited (roi_composite enable d)
                  then []
                  else [EvLog Error "Failed to switch to ROI mode"])).
Proof.
  intros Hp Hc d waited Hdone. subst waited d.
  unfold change_roi_mode, assert_params, bind, get_self, ret.
  rewrite Hp. cbv beta iota. rewrite Hc. unfold roi_dimensions in *.
  cbn [sig_set bind issue ret trace self]. unfold wait, success.
  cbn [trace self fate_of]. unfold roi_writes, roi_composite in *.
  rewrite <- !app_assoc. cbn [app]. rewrite Hdone.
  cbn [trace self].
  destruct (success_flag hw _ _); cbn [negb]; unfold issue;
    cbn [trace self]; rewrite <- ?app_assoc; reflexivity.
Qed.

(** When that wait raises, at the deadline or on a failed write, the fault
    leaves [change_roi_mode] before its log line is reached. *)
Lemma change_roi_mode_wait_raises enable p consts (w : world device) :
  detector_params (self w) = Some p ->
  detector_size_constants p = Some consts ->
  let d := roi_dimensions enable consts in
  let seen :=
    resolve hw (trace w ++ roi_writes enable d) (roi_composite enable d)
      (Some 10%Z) in
  seen <> DoneOk ->
  change_roi_mode hw enable w =
    (Raise match seen with DoneFail => StatusFailure | _ => WaitTimeoutError end,
     World (self w)
       (trace w ++ roi_writes enable d
                ++ [EvWait (roi_composite enable d) (Some 10%Z) seen])).
Proof.
  intros Hp Hc d seen Hseen. subst seen d.
  unfold change_roi_mode, assert_params, bind, get_self, ret.
  rewrite Hp. cbv beta iota. rewrite Hc. unfold roi_dimensions in *.
  cbn [sig_set bind issue ret trace self]. unfold wait.
  cbn [trace self fate_of]. unfold roi_writes, roi_composite in *.
  rewrite <- !app_assoc. cbn [app].
  destruct (resolve hw _ _ _); [ contradiction | | ]; reflexivity.
Qed.

Lemma bind_ok {A B} (c : M device A) (k : A -> M device B) w a w1 :
  c w = (Ok a, w1) -> bind c k w = k a w1.
Proof. intros H. unfold bind. rewrite H. reflexivity. Qed.

Lemma bind_raise {A B} (c : M device A) (k : A -> M device B) w e w1 :
  c w = (Raise e, w1) -> bind c k w = (Raise e, w1).
Proof. intros H. unfold bind. rewrite H. reflexivity. Qed.

Lemma params_attr_run p (w : world device) :
  detector_params (self w) = Some p -> params_attr w = (Ok p, w).
Proof.
  intros Hp. unfold params_attr, bind, get_self. rewrite Hp. reflexivity.
Qed.

(** C8, as the code has it: with ROI mode requested, a ROI switch whose wait
    does not find the five writes finished (a failed write, or one still
    pending at the deadline of 10) raises out of [change_roi_mode] and ends
    [stage] there.  Nothing is logged, and nothing of the threshold, camera,
    writer or trigger configuration is issued. *)
Theorem stage_stops_at_roi_fault p consts (w : world device) :
  detector_params (self w) = Some p ->
  detector_size_constants p = Some consts ->
  use_roi_mode p = true ->
  let cleared := trace w ++ [EvCall clear_odin_errors] in
  fst (check_odin_initialised hw cleared) = true ->
  let d := roi_size_pixels consts in
  let seen :=
    resolve hw (cleared ++ roi_writes true d) (roi_composite true d)
      (Some 10%Z) in
  seen <> DoneOk ->
  stage hw w =
    (Raise match seen with DoneFail => StatusFailure | _ => WaitTimeoutError end,
     World (self w)
       (cleared ++ roi_writes true d
                ++ [EvWait (roi_composite true d) (Some 10%Z) seen])).
Proof.
  intros Hp Hc Hroi cleared Hinit d seen Hseen.
  unfold stage.
  rewrite (bind_ok (issue (EvCall clear_odin_errors)) _ w tt
             (World (self w) cleared) eq_refl).
  rewrite (bind_ok get_history _ (World (self w) cleared) cleared
             (World (self w) cleared) eq_refl).
  destruct (check_odin_initialised hw cleared) as [status_ok error_message].
  cbn [fst] in Hinit. subst status_ok. cbn [negb].
  rewrite (bind_ok params_attr _ _ p _
             (params_attr_run p (World (self w) cleared) Hp)).
  rewrite Hroi. apply bind_raise. unfold enable_roi_mode.
  exact (change_roi_mode_wait_raises true p consts
           (World (self w) cleared) Hp Hc Hseen).
Qed.

End Proofs.

(** num_triggers = 3 and num_images_per_trigger = 3 in SET_FRAMES mode:
    trigger count 3, capture count 9. *)
Lemma set_num_triggers_and_captures_counts_witness :
  exists st,
    fst (set_num_triggers_and_captures configured) = Ok st
    /\ (SET_FRAMES = FREE_RUN ->
        trace (snd (set_num_triggers_and_captures configured)) =
          trace configured
          ++ [EvSet (Cam cam_num_images) (VInt 3);
              EvSet (Cam cam_num_triggers) (VInt 1000000);
              EvSet (Odin fw_num_capture) (VInt 0)])
    /\ (SET_FRAMES = SET_FRAMES ->
        trace (snd (set_num_triggers_and_captures configured)) =
          trace configured
          ++ [EvSet (Cam cam_num_images) (VInt 3);
              EvSet (Cam cam_num_triggers) (VInt 3);
              EvSet (Odin fw_num_capture) (VInt 9)]).
Proof.
  exact (set_num_triggers_and_captures_counts test_params configured eq_refl).
Defined.

Example set_frames_3_3 :
  trace (snd (set_num_triggers_and_captures configured)) =
    [EvSet (Cam cam_num_images) (VInt 3);
     EvSet (Cam cam_num_triggers) (VInt 3);
     EvSet (Odin fw_num_capture) (VInt 9)].
Proof. reflexivity. Qed.

Example free_run_5_7 :
  trace (snd (set_num_triggers_and_captures free_running)) =
    [EvSet (Cam cam_num_images) (VInt 7);
     EvSet (Cam cam_num_triggers) (VInt 1000000);
     EvSet (Odin fw_num_capture) (VInt 0)].
Proof. reflexivity. Qed.

Lemma set_num_triggers_and_captures_image_count_first_witness :
  exists rest,
    trace (snd (set_num_triggers_and_captures free_running)) =
      trace free_running ++ EvSet (Cam cam_num_images) (VInt 7) :: rest
    /\ (FREE_RUN = FREE_RUN ->
        rest = [EvSet (Cam cam_num_triggers) (VInt FREE_RUN_MAX_IMAGES);
                EvSet (Odin fw_num_capture) (VInt 0)]).
Proof.
  exact (set_num_triggers_and_captures_image_count_first
           free_run_params free_running eq_refl).
Defined.

(** The threshold reads 100 eV: a request for 100.0625 eV writes nothing. *)
Lemma set_detector_threshold_tolerance_witness :
  set_detector_threshold healthy_hw 100.0625 default_tolerance configured
  = (Ok SFinished, configured).
Proof.
  apply (proj1 (set_detector_threshold_tolerance healthy_hw 100.0625 configured)).
  reflexivity.
Defined.

(** ... and a request for 200 eV writes it once. *)
Example set_detector_threshold_200 :
  set_detector_threshold healthy_hw 200 default_tolerance configured
  = (Ok (SSet (Cam cam_photon_energy) (VFloat 200)),
     World (self configured) [EvSet (Cam cam_photon_energy) (VFloat 200)]).
Proof.
  apply (proj2 (set_detector_threshold_tolerance healthy_hw 200 configured)).
  reflexivity.
Qed.

Lemma set_detector_parameters_aggregates_witness :
  exists msg,
    fst (set_detector_parameters (Some bare_params) fresh)
    = Raise (PyException msg)
    /\ number_of_lines msg = 2.
Proof.
  exact (proj2 (set_detector_parameters_aggregates bare_params fresh)).
Defined.

Example both_missing_message :
  fst (set_detector_parameters (Some bare_params) fresh) =
    Raise (PyException
             ("Detector Size must be set" ++ newline
              ++ "Beam converter must be set")).
Proof. reflexivity. Qed.

Lemma set_detector_parameters_fault_state_witness :
  trace
    (World {| detector_params := Some bare_params;
              filewriters_finished := None |} []) = trace configured
  /\ filewriters_finished
       (self (World {| detector_params := Some bare_params;
                       filewriters_finished := None |} []))
     = filewriters_finished (self configured)
  /\ detector_params
       (self (World {| detector_params := Some bare_params;
                       filewriters_finished := None |} []))
     = Some bare_params.
Proof.
  exact (set_detector_parameters_fault_state (Some bare_params) configured
           _ _ eq_refl).
Defined.

(** C6 as stated fails: a device that holds usable parameters and is then
    given parameters with nothing to check against raises, and holds the
    refused parameters afterwards. *)
Lemma set_detector_parameters_fault_overwrites :
  exists msg w',
    set_detector_parameters (Some bare_params) configured
    = (Raise (PyException msg), w')
    /\ detector_params (self configured) = Some test_params
    /\ detector_params (self w') = Some bare_params
    /\ detector_params (self w') <> detector_params (self configured).
Proof.
  do 2 eexists. split; [ reflexivity | ]. repeat split.
  cbn. intros H.
  apply (f_equal (option_map detector_size_constants)) in H.
  discriminate H.
Qed.

Lemma unstage_requires_params_witness :
  detector_params
    (self (run_calls healthy_hw [Stage; Unstage] configured)) <> None
  /\ fst (unstage healthy_hw (run_calls healthy_hw [Stage; Unstage] configured))
     <> Raise AssertionError.
Proof.
  exact (proj2 (unstage_requires_params healthy_hw)
           (Some test_params) fresh configured [Stage; Unstage] eq_refl).
Defined.

Example unstage_without_params :
  unstage healthy_hw fresh = (Raise AssertionError, fresh).
Proof. reflexivity. Qed.

(** ROI mode is requested and the writer never acknowledges the image
    height: the wait of [change_roi_mode] raises at its deadline and [stage]
    ends with that fault, right after the five ROI writes. *)
Lemma stage_stops_at_roi_fault_witness :
  stage roi_stuck_hw configured =
    (Raise WaitTimeoutError,
     World (self configured)
       (EvCall clear_odin_errors
        :: roi_writes true (roi_size_pixels test_size_constants)
        ++ [EvWait (roi_composite true (roi_size_pixels test_size_constants))
              (Some 10%Z) Pending])).
Proof.
  apply (stage_stops_at_roi_fault roi_stuck_hw test_params test_size_constants
           configured); try reflexivity.
  vm_compute. discriminate.
Defined.

(** When the wait returns on a status without success (as under the unit
    test's patch), the failure is logged and staging goes on to the
    threshold and beyond. *)
Example stage_logs_unsuccessful_roi :
  fst (stage unsuccessful_hw configured) = Ok tt
  /\ nth_error (trace (snd (stage unsuccessful_hw configured))) 7
     = Some (EvLog Error "Failed to switch to ROI mode")
  /\ nth_error (trace (snd (stage unsuccessful_hw configured))) 8
     = Some (EvSet (Cam cam_acquire_time) (VFloat 1)).
Proof. vm_compute. repeat split. Qed.

End Detector.

(** ** The preset table *)

Module Presets.
Import Ophyd ApertureScatterguard.

(** [from_gda_beamline_params] reads its twenty keys in order: with a key
    missing it raises KeyError for the first missing one; otherwise it
    returns a table whose twenty numbers are the values stored under the
    twenty keys, preset by preset. *)
Theorem from_gda_beamline_params_reads_keys (params : beamline_params) :
  match find (missing params) gda_keys with
  | Some key => from_gda_beamline_params params = inl key
  | None =>
      exists positions,
        from_gda_beamline_params params = inr positions
        /\ map Some (components positions) = map params gda_keys
  end.
Proof.
  unfold from_gda_beamline_params, getitem, missing.
  cbn [gda_keys find map].
  repeat (match goal with
          | |- context [params ?k] => destruct (params k) eqn:?
          end; cbn [key_bind]; [ | reflexivity ]).
  eexists. split; reflexivity.
Qed.

Example presets_from_params :
  from_gda_beamline_params presets_params = inr presets.
Proof. reflexivity. Qed.

Example presets_key_missing :
  from_gda_beamline_params
    (fun key => if String.eqb key "sg_x_SMALL_APERTURE" then None
                else presets_params key)
  = inl "sg_x_SMALL_APERTURE"%string.
Proof. reflexivity. Qed.

Section Proofs.
Variable hw : hardware.

(** What [tuple_eq] decides: component by component, the same object or
    numbers that compare equal. *)
Lemma tuple_eq_components a b :
  tuple_eq a b = true <->
  Forall2 (fun x y : pyfloat =>
             address x = address y \/ PrimFloat.eqb x y = true)
    (tuple_components a) (tuple_components b).
Proof.
  destruct a as [[[[a1 a2] a3] a4] a5], b as [[[[b1 b2] b3] b4] b5].
  unfold tuple_eq, tuple_components, item_eq, same_object.
  rewrite !andb_true_iff, !orb_true_iff, !N.eqb_eq. split.
  - intros [[[[H1 H2] H3] H4] H5].
    repeat (apply Forall2_cons; [ assumption | ]). apply Forall2_nil.
  - intros H.
    inversion H as [ | ? ? ? ? H1 T1]; subst; clear H.
    inversion T1 as [ | ? ? ? ? H2 T2]; subst; clear T1.
    inversion T2 as [ | ? ? ? ? H3 T3]; subst; clear T2.
    inversion T3 as [ | ? ? ? ? H4 T4]; subst; clear T3.
    inversion T4 as [ | ? ? ? ? H5 T5]; subst; clear T4.
    repeat split; assumption.
Qed.

(** [load_aperture_positions] returns, replaces the table whatever the
    device held, and issues nothing.  Afterwards [set] goes on to the safe
    move for each of the four tuples of the new table, and refuses every
    target that matches none of them component by component (the same
    object, or numbers that compare equal). *)
Theorem load_aperture_positions_then_set positions pos (w : world device) :
  let w1 := snd (load_aperture_positions positions w) in
  fst (load_aperture_positions positions w) = Ok tt
  /\ self w1 = Some positions
  /\ trace w1 = trace w
  /\ (In pos (preset_list positions) ->
      set hw pos w1 =
        let '(ax, ay, az, sx, sy) := pos in
        _safe_move_within_datacollection_range hw ax ay az sx sy w1)
  /\ ((forall p,
         In p (preset_list positions) ->
         ~ Forall2 (fun x y : pyfloat =>
                      address x = address y \/ PrimFloat.eqb x y = true)
             (tuple_components p) (tuple_components pos)) ->
      set hw pos w1 = (Raise (InvalidApertureMove "AssertionError()"), w1)).
Proof.
  intros w1. do 3 (split; [ reflexivity | ]). split.
  - intros Hin. destruct pos as [[[[ax ay] az] sx] sy].
    apply (SafeMove.set_valid hw positions); [ reflexivity | ].
    rewrite SafeMove.position_valid_tuple_in.
    apply SafeMove.tuple_in_true. exists (ax, ay, az, sx, sy).
    split; [ exact Hin | apply SafeMove.tuple_eq_refl ].
  - intros Hnone. apply SafeMove.set_invalid. cbn [w1 load_aperture_positions
      set_self snd self].
    rewrite SafeMove.position_valid_tuple_in.
    apply SafeMove.tuple_in_false. intros p Hp.
    destruct (tuple_eq p pos) eqn:E; [ exfalso | reflexivity ].
    apply (Hnone p Hp). apply tuple_eq_components. exact E.
Qed.

End Proofs.

(** Loading [nan_presets] into a device without a table: its LARGE is then
    taken, NaN and all. *)
Lemma load_aperture_positions_then_set_witness :
  set still_hw (LARGE nan_presets)
    (snd (load_aperture_positions nan_presets unloaded))
  = _safe_move_within_datacollection_range still_hw 0 PrimFloat.nan 2 3 4
      (snd (load_aperture_positions nan_presets unloaded)).
Proof.
  apply (proj1 (proj2 (proj2 (proj2
           (load_aperture_positions_then_set still_hw nan_presets
              (LARGE nan_presets) unloaded))))).
  left. reflexivity.
Defined.

End Presets.

(** ** NaN in comparisons *)

Module FloatNaN.

Lemma SFcompare_refl (x : spec_float) :
  x <> S754_nan -> SFcompare x x = Some Eq.
Proof.
  destruct x as [sx | sx | | sx mx ex]; intros Hx;
    try (destruct sx; reflexivity); [ contradiction | ].
  cbn [SFcompare]. rewrite Z.compare_refl.
  change PosDef.Pos.compare_cont with Pos.compare_cont.
  rewrite Pos.compare_cont_refl. destruct sx; reflexivity.
Qed.

Lemma is_nan_SF (x : float) :
  PrimFloat.is_nan x = true -> Prim2SF x = S754_nan.
Proof.
  unfold PrimFloat.is_nan. rewrite eqb_spec. unfold SFeqb. intros H.
  destruct (Prim2SF x) eqn:E; try reflexivity;
    rewrite SFcompare_refl in H by discriminate; discriminate.
Qed.

Lemma SF_is_nan (x : float) :
  Prim2SF x = S754_nan -> PrimFloat.is_nan x = true.
Proof.
  unfold PrimFloat.is_nan. rewrite eqb_spec. unfold SFeqb.
  intros ->. reflexivity.
Qed.

(** Nothing is below a NaN, and a NaN is below nothing. *)
Lemma ltb_nan (x y : float) :
  PrimFloat.is_nan x = true \/ PrimFloat.is_nan y = true ->
  PrimFloat.ltb x y = false.
Proof.
  rewrite ltb_spec. unfold SFltb.
  intros [H | H]; apply is_nan_SF in H; rewrite H.
  - reflexivity.
  - destruct (Prim2SF x); reflexivity.
Qed.

(** The distance to or from a NaN is a NaN. *)
Lemma abs_sub_nan (x y : float) :
  PrimFloat.is_nan x = true \/ PrimFloat.is_nan y = true ->
  PrimFloat.is_nan (PrimFloat.abs (PrimFloat.sub x y)) = true.
Proof.
  intros H. apply SF_is_nan. rewrite abs_spec, sub_spec.
  unfold SF64sub, SFsub.
  destruct H as [H | H]; apply is_nan_SF in H; rewrite H.
  - reflexivity.
  - destruct (Prim2SF x); reflexivity.
Qed.

End FloatNaN.

(** ** Outcomes of a move *)

Module Moves.
Import Ophyd ApertureScatterguard.

Section Proofs.
Variable hw : hardware.

Lemma safe_move_noop ax ay az sx sy (w : world device) :
  truthy (read_int hw (trace w) (MotorPV aperture_z motor_done_move)) = false ->
  _safe_move_within_datacollection_range hw ax ay az sx sy w = (Ok None, w).
Proof.
  intros Hz. unfold _safe_move_within_datacollection_range, bind, get_int.
  rewrite Hz. reflexivity.
Qed.

Lemma safe_move_other_plane ax ay az sx sy (w : world device) :
  truthy (read_int hw (trace w) (MotorPV aperture_z motor_done_move)) = true ->
  PrimFloat.eqb (read_float hw (trace w) (MotorPV aperture_z user_setpoint)) az
    = false ->
  _safe_move_within_datacollection_range hw ax ay az sx sy w =
    (Raise (InvalidApertureMove not_defined_message), w).
Proof.
  intros Hz Hs.
  unfold _safe_move_within_datacollection_range, bind, get_int, get_float.
  rewrite Hz. cbn [negb]. rewrite Hs. reflexivity.
Qed.

(** With z at rest on a setpoint that is not the requested z, the safe move
    raises [InvalidApertureMove] ("not yet defined for positions outside of
    LARGE, MEDIUM, SMALL, ROBOT_LOAD") and issues nothing; so does [set],
    for a target that is one of the presets. *)
Theorem safe_move_refuses_other_plane (ax ay az sx sy : pyfloat)
  (w : world device) :
  truthy (read_int hw (trace w) (MotorPV aperture_z motor_done_move)) = true ->
  PrimFloat.eqb (read_float hw (trace w) (MotorPV aperture_z user_setpoint)) az
    = false ->
  _safe_move_within_datacollection_range hw ax ay az sx sy w =
    (Raise (InvalidApertureMove not_defined_message), w)
  /\ (forall positions,
        self w = Some positions ->
        position_valid positions (ax, ay, az, sx, sy) = true ->
        set hw (ax, ay, az, sx, sy) w =
          (Raise (InvalidApertureMove not_defined_message), w)).
Proof.
  intros Hz Hs. split.
  - apply safe_move_other_plane; assumption.
  - intros positions Hself Hvalid.
    rewrite (SafeMove.set_valid hw positions _ _ _ _ _ _ Hself Hvalid).
    apply safe_move_other_plane; assumption.
Qed.

(** What [set] does, case by case. *)
Lemma set_cases (ax ay az sx sy : pyfloat) (w : world device) :
  (set hw (ax, ay, az, sx, sy) w
   = (Raise (InvalidApertureMove "AssertionError()"), w))
  \/ (set hw (ax, ay, az, sx, sy) w = (Ok None, w))
  \/ (set hw (ax, ay, az, sx, sy) w
      = (Raise (InvalidApertureMove not_defined_message), w))
  \/ (accepted hw (ax, ay, az, sx, sy) w
      /\ exists seen first composite second final,
           set hw (ax, ay, az, sx, sy) w =
             (after_wait seen final,
              World (self w)
                (trace w ++ first ++ EvWait composite None seen
                                     :: second_phase seen second))
           /\ Permutation (first ++ second) (target_events (ax, ay, az, sx, sy))
           /\ Permutation (leaves final)
                (target_statuses (ax, ay, az, sx, sy))).
Proof.
  destruct (self w) as [positions | ] eqn:Hself;
    pose proof Hself as Htable; unfold device in Htable.
  2:{ left. apply SafeMove.set_invalid. rewrite Htable. exact I. }
  destruct (position_valid positions (ax, ay, az, sx, sy)) eqn:Hvalid.
  2:{ left. apply SafeMove.set_invalid. rewrite Htable. exact Hvalid. }
  rewrite (SafeMove.set_valid hw positions _ _ _ _ _ _ Hself Hvalid).
  destruct (truthy (read_int hw (trace w) (MotorPV aperture_z motor_done_move)))
    eqn:Hz.
  2:{ right. left. apply safe_move_noop. exact Hz. }
  destruct (PrimFloat.eqb
              (read_float hw (trace w) (MotorPV aperture_z user_setpoint)) az)
    eqn:Hs.
  2:{ right. right. left. apply safe_move_other_plane; assumption. }
  right. right. right. split.
  { unfold accepted. split; [ exists positions; split; assumption | ].
    split; assumption. }
  destruct (PrimFloat.ltb
              (read_float hw (trace w) (MotorPV aperture_y user_readback)) ay)
    eqn:Hy.
  - rewrite (SafeMove.safe_move_up hw ax ay az sx sy w Hz Hs Hy), Hself.
    do 5 eexists. split; [ reflexivity | ]. split.
    + apply (Permutation_app_comm (sg_moves sx sy) (ap_moves ax ay az)).
    + apply (Permutation_app_comm
               [SSet (Motor scatterguard_x) (VFloat sx);
                SSet (Motor scatterguard_y) (VFloat sy)]
               [SSet (Motor aperture_x) (VFloat ax);
                SSet (Motor aperture_y) (VFloat ay);
                SSet (Motor aperture_z) (VFloat az)]).
  - rewrite (SafeMove.safe_move_down hw ax ay az sx sy w Hz Hs Hy), Hself.
    do 5 eexists. split; [ reflexivity | ]. split; apply Permutation_refl.
Qed.

(** [set] never touches the preset table, and it issues an operation only
    for a move it accepted: a target that is no preset, an axis z that is
    still moving or a z setpoint other than the requested one leave the
    history as it was. *)
Theorem set_issues_only_when_accepted pos (w : world device) :
  self (snd (set hw pos w)) = self w
  /\ (trace (snd (set hw pos w)) <> trace w -> accepted hw pos w).
Proof.
  destruct pos as [[[[ax ay] az] sx] sy].
  destruct (set_cases ax ay az sx sy w)
    as [-> | [-> | [-> | [Hacc [seen [first [composite [second [final
         [-> _]]]]]]]]]];
    cbn [snd self trace]; split; try reflexivity; try contradiction.
  intros _. exact Hacc.
Qed.

(** When [set] returns a status, that status is the AND of exactly the five
    moves of the target, and these five moves are the motor moves it
    issued. *)
Theorem set_status_covers_target pos (w : world device) st w' :
  set hw pos w = (Ok (Some st), w') ->
  Permutation (leaves st) (target_statuses pos)
  /\ exists new,
       trace w' = trace w ++ new
       /\ Permutation (motor_moves new) (target_events pos).
Proof.
  destruct pos as [[[[ax ay] az] sx] sy].
  destruct (set_cases ax ay az sx sy w)
    as [-> | [-> | [-> | [Hacc [seen [first [composite [second [final
         [-> [Hmoves Hleaves]]]]]]]]]]];
    try discriminate.
  destruct seen; try discriminate. cbn [after_wait second_phase].
  intros H. injection H as <- <-. split; [ exact Hleaves | ].
  exists (first ++ EvWait composite None DoneOk :: second).
  split; [ reflexivity | ].
  unfold motor_moves. rewrite filter_app. cbn [filter moves].
  rewrite <- filter_app.
  assert (Hall : forall e, In e (first ++ second) ->
                           moves (fun _ => true) e = true).
  { intros e He. apply (Permutation_in _ Hmoves) in He.
    destruct He as [<- | [<- | [<- | [<- | [<- | []]]]]]; reflexivity. }
  rewrite forallb_filter_id.
  - exact Hmoves.
  - apply forallb_forall. exact Hall.
Qed.

(** The aperture goes first whenever the requested y is not strictly above
    the reading, and so when either of them is a NaN. *)
Theorem safe_move_without_order (ax ay az sx sy : pyfloat)
  (w : world device) :
  accepted hw (ax, ay, az, sx, sy) w ->
  let current_ap_y :=
    read_float hw (trace w) (MotorPV aperture_y user_readback) in
  PrimFloat.is_nan current_ap_y = true \/ PrimFloat.is_nan ay = true ->
  exists new,
    trace (snd (set hw (ax, ay, az, sx, sy) w)) = trace w ++ new
    /\ barrier (ap_moves ax ay az) (ap_composite ax ay az) (sg_moves sx sy) new.
Proof.
  intros [[positions [Hself Hvalid]] [Hz Hs]] current_ap_y Hnan.
  apply FloatNaN.ltb_nan in Hnan.
  rewrite (SafeMove.set_valid hw positions _ _ _ _ _ _ Hself Hvalid).
  rewrite (SafeMove.safe_move_down hw ax ay az sx sy w Hz Hs Hnan).
  cbn [snd trace]. eexists. split; [ reflexivity | ].
  eexists. reflexivity.
Qed.

End Proofs.

(** z rests at 2 and the target asks for z = 9. *)
Lemma safe_move_refuses_other_plane_witness :
  _safe_move_within_datacollection_range still_hw 0 20 9 3 4 other_plane_loaded
  = (Raise (InvalidApertureMove not_defined_message), other_plane_loaded)
  /\ (forall positions,
        self other_plane_loaded = Some positions ->
        position_valid positions other_plane = true ->
        set still_hw other_plane other_plane_loaded =
          (Raise (InvalidApertureMove not_defined_message), other_plane_loaded)).
Proof.
  apply (safe_move_refuses_other_plane still_hw (PyFloat 31 0) (PyFloat 32 20)
           (PyFloat 33 9) (PyFloat 34 3) (PyFloat 35 4) other_plane_loaded);
    reflexivity.
Defined.

Example set_other_plane :
  set still_hw other_plane other_plane_loaded =
    (Raise (InvalidApertureMove not_defined_message), other_plane_loaded).
Proof. reflexivity. Qed.

Lemma set_status_covers_target_witness :
  Permutation
    (leaves (SAnd (SAnd (SAnd (sg_composite 3 4)
                              (SSet (Motor aperture_x) (VFloat 0)))
                        (SSet (Motor aperture_y) (VFloat 20)))
                  (SSet (Motor aperture_z) (VFloat 2))))
    (target_statuses (LARGE presets))
  /\ exists new,
       trace (World (Some presets)
                (sg_moves 3 4 ++ EvWait (sg_composite 3 4) None DoneOk
                                 :: ap_moves 0 20 2))
       = trace loaded ++ new
       /\ Permutation (motor_moves new) (target_events (LARGE presets)).
Proof.
  exact (set_status_covers_target still_hw (LARGE presets) loaded _ _ eq_refl).
Defined.

(** LARGE asks for a NaN as the aperture y, and is passed as the tuple the
    table holds: the aperture goes first. *)
Lemma safe_move_without_order_witness :
  exists new,
    trace (snd (set still_hw (LARGE nan_presets) nan_loaded))
    = trace nan_loaded ++ new
    /\ barrier (ap_moves 0 PrimFloat.nan 2) (ap_composite 0 PrimFloat.nan 2)
         (sg_moves 3 4) new.
Proof.
  apply (safe_move_without_order still_hw (PyFloat 41 0)
           (PyFloat 42 PrimFloat.nan) (PyFloat 43 2) (PyFloat 44 3)
           (PyFloat 45 4) nan_loaded).
  - unfold accepted. split.
    + exists nan_presets. split; reflexivity.
    + split; reflexivity.
  - right. reflexivity.
Defined.

(** No reading of the aperture y position: the aperture goes first. *)
Example safe_move_without_reading :
  exists new,
    trace (snd (set blind_hw (LARGE presets) loaded)) = trace loaded ++ new
    /\ barrier (ap_moves 0 20 2) (ap_composite 0 20 2) (sg_moves 3 4) new.
Proof.
  eexists. split; [ reflexivity | ]. exists DoneOk. reflexivity.
Qed.

End Moves.

(** ** Guards and edge cases of the detector *)

Module Guards.
Import Ophyd Eiger.

Section Proofs.
Variable hw : hardware.

(** [stage] clears the writer's errors and asks whether it is initialised.
    When it is not, [stage] raises "Odin not initialised: " followed by the
    writer's own reason; when it is but no parameters were set, [stage]
    raises AttributeError.  Either way the clear call is all that was
    issued and the device's attributes are as before. *)
Theorem stage_guards (w : world device) :
  let cleared := trace w ++ [EvCall clear_odin_errors] in
  (fst (check_odin_initialised hw cleared) = false ->
   stage hw w =
     (Raise (PyException ("Odin not initialised: "
                          ++ snd (check_odin_initialised hw cleared))),
      World (self w) cleared))
  /\ (fst (check_odin_initialised hw cleared) = true ->
      detector_params (self w) = None ->
      stage hw w = (Raise AttributeError, World (self w) cleared)).
Proof.
  intros cleared. unfold stage.
  rewrite (Detector.bind_ok (issue (EvCall clear_odin_errors)) _ w tt
             (World (self w) cleared) eq_refl).
  rewrite (Detector.bind_ok get_history _ (World (self w) cleared) cleared
             (World (self w) cleared) eq_refl).
  destruct (check_odin_initialised hw cleared) as [status_ok error_message].
  cbn [fst snd]. split; intros ->; cbn [negb].
  - reflexivity.
  - intros Hnone. apply Detector.bind_raise.
    unfold params_attr, bind, get_self. cbn [self]. rewrite Hnone. reflexivity.
Qed.

(** [change_roi_mode] needs the detector size: without parameters it fails
    its assertion, without size constants it raises AttributeError, and in
    both cases nothing is written.  With them, and once the wait on the
    five writes returns, it has written the ROI flag (1 or 0) and the
    height and width of the ROI size when enabling, of the full detector
    size when disabling, each to the image size and to the chunk count, and
    it logs an error exactly when the status reports no success. *)
Theorem change_roi_mode_geometry enable (w : world device) :
  (detector_params (self w) = None ->
   change_roi_mode hw enable w = (Raise AssertionError, w))
  /\ (forall p,
        detector_params (self w) = Some p ->
        detector_size_constants p = None ->
        change_roi_mode hw enable w = (Raise AttributeError, w))
  /\ (forall p consts,
        detector_params (self w) = Some p ->
        detector_size_constants p = Some consts ->
        let d := if enable then roi_size_pixels consts
                 else det_size_pixels consts in
        let writes :=
          [EvSet (Cam cam_roi_mode) (VInt (if enable then 1 else 0));
           EvSet (Odin fw_image_height) (VInt (height d));
           EvSet (Odin fw_image_width) (VInt (width d));
           EvSet (Odin fw_num_row_chunks) (VInt (height d));
           EvSet (Odin fw_num_col_chunks) (VInt (width d))] in
        let waited :=
          trace w ++ writes
                  ++ [EvWait (roi_composite enable d) (Some 10%Z) DoneOk] in
        resolve hw (trace w ++ writes) (roi_composite enable d) (Some 10%Z)
        = DoneOk ->
        change_roi_mode hw enable w =
          (Ok tt,
           World (self w)
             (waited ++ if success_flag hw waited (roi_composite enable d)
                        then []
                        else [EvLog Error "Failed to switch to ROI mode"]))).
Proof.
  split; [ | split ].
  - intros Hnone. unfold change_roi_mode, assert_params, bind, get_self.
    rewrite Hnone. reflexivity.
  - intros p Hp Hc. unfold change_roi_mode, assert_params, bind, get_self, ret.
    rewrite Hp. cbv beta iota. rewrite Hc. reflexivity.
  - intros p consts Hp Hc d writes waited Hdone.
    exact (Detector.change_roi_mode_logs_only hw enable p consts w Hp Hc Hdone).
Qed.

(** [set_detector_parameters(None)] raises its one-line fault and leaves the
    device without parameters, whatever it held before: an [unstage] that
    follows fails its assertion and issues nothing. *)
Theorem set_no_parameters_then_unstage (w : world device) :
  let w1 := snd (set_detector_parameters None w) in
  fst (set_detector_parameters None w)
  = Raise (PyException "Parameters for scan must be specified")
  /\ number_of_lines "Parameters for scan must be specified" = 1
  /\ detector_params (self w1) = None
  /\ trace w1 = trace w
  /\ unstage hw w1 = (Raise AssertionError, w1).
Proof.
  intros w1. repeat split.
Qed.

(** A NaN, as the energy read back, as the energy asked for or as the
    tolerance, never brings a write: [set_detector_threshold] returns the
    finished status and issues nothing. *)
Theorem set_detector_threshold_nan energy tolerance (w : world device) :
  PrimFloat.is_nan (read_float hw (trace w) (Cam cam_photon_energy)) = true
  \/ PrimFloat.is_nan energy = true
  \/ PrimFloat.is_nan tolerance = true ->
  set_detector_threshold hw energy tolerance w = (Ok SFinished, w).
Proof.
  intros Hnan.
  unfold set_detector_threshold, bind, get_float.
  rewrite FloatNaN.ltb_nan; [ reflexivity | ].
  destruct Hnan as [H | [H | H]].
  - right. apply FloatNaN.abs_sub_nan. left. exact H.
  - right. apply FloatNaN.abs_sub_nan. right. exact H.
  - left. exact H.
Qed.

End Proofs.

(** The writer reports "Test error". *)
Lemma stage_guards_witness :
  stage uninitialised_hw configured =
    (Raise (PyException "Odin not initialised: Test error"),
     World (self configured) [EvCall clear_odin_errors]).
Proof.
  apply (proj1 (stage_guards uninitialised_hw configured)). reflexivity.
Defined.

Example stage_without_parameters :
  stage healthy_hw fresh =
    (Raise AttributeError, World (self fresh) [EvCall clear_odin_errors]).
Proof.
  apply (proj2 (stage_guards healthy_hw fresh)); reflexivity.
Qed.

(** Disabling ROI mode writes the full detector size. *)
Lemma change_roi_mode_geometry_witness :
  change_roi_mode healthy_hw false configured =
    (Ok tt,
     World (self configured)
       [EvSet (Cam cam_roi_mode) (VInt 0);
        EvSet (Odin fw_image_height) (VInt 4362);
        EvSet (Odin fw_image_width) (VInt 4148);
        EvSet (Odin fw_num_row_chunks) (VInt 4362);
        EvSet (Odin fw_num_col_chunks) (VInt 4148);
        EvWait (roi_composite false (det_size_pixels test_size_constants))
          (Some 10%Z) DoneOk]).
Proof.
  apply (proj2 (proj2 (change_roi_mode_geometry healthy_hw false configured))
           test_params test_size_constants); reflexivity.
Defined.

Lemma set_detector_threshold_nan_witness :
  set_detector_threshold blind_energy_hw 100 default_tolerance configured
  = (Ok SFinished, configured).
Proof.
  apply (set_detector_threshold_nan blind_energy_hw 100 default_tolerance
           configured).
  left. reflexivity.
Defined.

End Guards.

(** ** The lifecycle: what [stage] and [unstage] issue, and in which order *)

Module Lifecycle.
Import Ophyd Eiger History.

Lemma run_app m s h1 h2 :
  run m s (h1 ++ h2) =
    match run m s h1 with
    | Some s1 => run m s1 h2
    | None => None
    end.
Proof.
  revert s. induction h1 as [ | e h1 IH]; intros s; cbn [app run].
  - reflexivity.
  - destruct (step m s e); [ apply IH | reflexivity ].
Qed.

(** *** What the monitors' verdicts mean *)

Lemma fault_monitor_sound new : forall failed,
  run fault_monitor false new = Some failed ->
  (forall e, In e new -> unbounded_wait e = false)
  /\ if failed
     then exists before last,
            new = before ++ [last] /\ failed_wait last = true
            /\ all_finished before
     else all_finished new.
Proof.
  induction new as [ | e new IH]; intros failed Hrun.
  - cbn in Hrun. injection Hrun as <-. split; [ intros e [] | intros e [] ].
  - cbn [run fault_monitor step] in Hrun.
    destruct (unbounded_wait e) eqn:Hu; [ discriminate | ].
    destruct (failed_wait e) eqn:Hf.
    + destruct new as [ | e' new']; [ | discriminate Hrun ].
      cbn in Hrun. injection Hrun as <-. split.
      * intros x [<- | []]. exact Hu.
      * exists [], e. repeat split; [ exact Hf | intros x [] ].
    + destruct (IH failed Hrun) as [Hb Hrest]. split.
      * intros x [<- | Hx]; [ exact Hu | exact (Hb x Hx) ].
      * destruct failed.
        -- destruct Hrest as [before [last [-> [Hl Hok]]]].
           exists (e :: before), last. repeat split; [ exact Hl | ].
           intros x [<- | Hx]; [ exact Hf | exact (Hok x Hx) ].
        -- intros x [<- | Hx]; [ exact Hf | exact (Hrest x Hx) ].
Qed.

Lemma ordered_cons Qs e h : ordered Qs h -> ordered Qs (e :: h).
Proof.
  destruct Qs as [ | Q Qs]; [ intros; exact I | ].
  intros [before [q [after [-> H]]]]. exists (e :: before), q, after.
  split; [ reflexivity | exact H ].
Qed.

(** An accepted history has [P] only after the steps that were still to
    come. *)
Lemma chain_monitor_guards P h : forall Qs Qs',
  run (chain_monitor P) Qs h = Some Qs' ->
  forall pre e post, h = pre ++ e :: post -> P e = true -> ordered Qs pre.
Proof.
  induction h as [ | x h IH]; intros Qs Qs' Hrun pre e post Heq He.
  - destruct pre; discriminate.
  - cbn [run chain_monitor step] in Hrun.
    destruct pre as [ | y pre]; cbn in Heq; injection Heq as <- Hh.
    + rewrite He in Hrun. destruct Qs; [ exact I | discriminate ].
    + destruct (P x) eqn:Hx.
      * destruct Qs; [ exact I | discriminate ].
      * destruct Qs as [ | Q Qs]; [ exact I | ].
        destruct (Q x) eqn:HQ.
        -- exists [], x, pre. repeat split; [ exact HQ | ].
           exact (IH _ _ Hrun pre e post Hh He).
        -- apply ordered_cons. exact (IH _ _ Hrun pre e post Hh He).
Qed.

(** A history accepted down to the end of the steps holds them all. *)
Lemma chain_monitor_complete P h : forall Qs,
  run (chain_monitor P) Qs h = Some [] -> ordered Qs h.
Proof.
  induction h as [ | x h IH]; intros Qs Hrun.
  - cbn in Hrun. injection Hrun as ->. exact I.
  - cbn [run chain_monitor step] in Hrun.
    destruct (P x).
    + destruct Qs; [ exact I | discriminate ].
    + destruct Qs as [ | Q Qs]; [ exact I | ].
      destruct (Q x) eqn:HQ.
      * exists [], x, h. repeat split; [ exact HQ | exact (IH _ Hrun) ].
      * apply ordered_cons. exact (IH _ Hrun).
Qed.

Lemma never_monitor_sound P h s :
  run (never_monitor P) tt h = Some s -> forall e, In e h -> P e = false.
Proof.
  induction h as [ | x h IH]; intros Hrun e He; [ destruct He | ].
  cbn [run never_monitor step] in Hrun.
  destruct (P x) eqn:Hx; [ discriminate | ].
  destruct He as [<- | He]; [ exact Hx | exact (IH Hrun e He) ].
Qed.

(** From a monitor's verdict on a method to the history of one run. *)
Lemma guarded_by {A} (c : M device A) P Qs I E (w : world device) new :
  observed (chain_monitor P) I E Qs c [] ->
  I (self w) ->
  trace (snd (c w)) = trace w ++ new ->
  forall pre e post, new = pre ++ e :: post -> P e = true -> ordered Qs pre.
Proof.
  intros Hc Hw Ht pre e post Heq He.
  destruct (Hc w Hw) as [new' [Ht' [_ Hr]]].
  assert (new' = new) as ->
    by (rewrite Ht in Ht'; exact (app_inv_head _ _ _ (eq_sym Ht'))).
  destruct (fst (c w)) as [a | x | ].
  - exact (chain_monitor_guards _ _ _ _ Hr pre e post Heq He).
  - destruct Hr as [s' [Hrun _]].
    exact (chain_monitor_guards _ _ _ _ Hrun pre e post Heq He).
  - contradiction.
Qed.

Lemma completed_by {A} (c : M device A) P Qs I E (w : world device) new a :
  observed (chain_monitor P) I E Qs c [] ->
  I (self w) ->
  trace (snd (c w)) = trace w ++ new ->
  fst (c w) = Ok a -> ordered Qs new.
Proof.
  intros Hc Hw Ht Ha.
  destruct (Hc w Hw) as [new' [Ht' [_ Hr]]].
  assert (new' = new) as ->
    by (rewrite Ht in Ht'; exact (app_inv_head _ _ _ (eq_sym Ht'))).
  rewrite Ha in Hr. exact (chain_monitor_complete _ _ _ Hr).
Qed.

Lemma never_by {A} (c : M device A) P I E (w : world device) :
  observed (never_monitor P) I E tt c tt ->
  I (self w) ->
  exists new,
    trace (snd (c w)) = trace w ++ new
    /\ forall e, In e new -> P e = false.
Proof.
  intros Hc Hw. destruct (Hc w Hw) as [new [Ht [_ Hr]]].
  exists new. split; [ exact Ht | ].
  destruct (fst (c w)) as [a | x | ].
  - exact (never_monitor_sound _ _ _ Hr).
  - destruct Hr as [s' [Hrun _]]. exact (never_monitor_sound _ _ _ Hrun).
  - contradiction.
Qed.

(** *** Rules *)

Section Rules.
Variable hw : hardware.
Variable m : monitor.
Variable I : device -> Prop.
Variable E : exn -> state m -> Prop.

Lemma obs_pure {A} (c : M device A) s :
  (forall w, exists a, c w = (Ok a, w)) -> observed m I E s c s.
Proof.
  intros Hc w Hw. destruct (Hc w) as [a ->]. exists [].
  cbn. rewrite app_nil_r. repeat split. exact Hw.
Qed.

Lemma obs_ret {A} (a : A) s : observed m I E s (ret a) s.
Proof. apply obs_pure. intros w. exists a. reflexivity. Qed.

Lemma obs_raise {A} e s s1 :
  E e s -> observed m I E s (@raise device A e) s1.
Proof.
  intros He w Hw. exists []. cbn. rewrite app_nil_r.
  repeat split; [ exact Hw | ]. exists s. split; [ reflexivity | exact He ].
Qed.

Lemma obs_bind {A B} (c : M device A) (k : A -> M device B) s s1 s2 :
  observed m I E s c s1 -> (forall a, observed m I E s1 (k a) s2) ->
  observed m I E s (bind c k) s2.
Proof.
  intros Hc Hk w Hw. destruct (Hc w Hw) as [n1 [Ht [Hw1 Hr]]].
  unfold bind. destruct (c w) as [[a | e | ] w1]; cbn [fst snd] in *.
  - destruct (Hk a w1 Hw1) as [n2 [Ht2 [Hw2 Hr2]]].
    exists (n1 ++ n2). rewrite Ht2, Ht, app_assoc.
    split; [ reflexivity | ]. split; [ exact Hw2 | ].
    destruct (fst (k a w1)).
    + rewrite run_app, Hr. exact Hr2.
    + destruct Hr2 as [s' [Hrun He]]. exists s'.
      rewrite run_app, Hr. split; assumption.
    + exact Hr2.
  - exists n1. repeat split; assumption.
  - contradiction.
Qed.

(** The monad laws, as far as [observed] sees. *)
Lemma obs_assoc {A B C} (a : M device A) (b : A -> M device B)
  (k : B -> M device C) s s1 :
  observed m I E s (bind a (fun x => bind (b x) k)) s1 ->
  observed m I E s (bind (bind a b) k) s1.
Proof.
  intros H w Hw. specialize (H w Hw). unfold bind in *.
  destruct (a w) as [[x | e | ] w1]; exact H.
Qed.

Lemma obs_ret_bind {A B} (a : A) (k : A -> M device B) s s1 :
  observed m I E s (k a) s1 -> observed m I E s (bind (ret a) k) s1.
Proof. intros H. exact H. Qed.

Lemma obs_issue ev s s1 :
  step m s ev = Some s1 -> observed m I E s (issue ev) s1.
Proof.
  intros Hs w Hw. exists [ev]. cbn. rewrite Hs. repeat split. exact Hw.
Qed.

Lemma obs_get_history s : observed m I E s get_history s.
Proof. apply obs_pure. intros w. eexists. reflexivity. Qed.

Lemma obs_get_float sig s : observed m I E s (get_float hw sig) s.
Proof. apply obs_pure. intros w. eexists. reflexivity. Qed.

Lemma obs_get_int sig s : observed m I E s (get_int hw sig) s.
Proof. apply obs_pure. intros w. eexists. reflexivity. Qed.

Lemma obs_success st s : observed m I E s (success hw st) s.
Proof. apply obs_pure. intros w. eexists. reflexivity. Qed.

(** A wait with a deadline: the monitor must take each of its outcomes. *)
Lemma obs_wait st d s s1 :
  step m s (EvWait st (Some d) DoneOk) = Some s1 ->
  (exists s', step m s (EvWait st (Some d) DoneFail) = Some s'
              /\ E StatusFailure s') ->
  (exists s', step m s (EvWait st (Some d) Pending) = Some s'
              /\ E WaitTimeoutError s') ->
  observed m I E s (wait hw st (Some d)) s1.
Proof.
  intros Hok [sf [Hf Ef]] [sp [Hpd Epd]] w Hw.
  exists [EvWait st (Some d) (fate_of hw (trace w) st (Some d))].
  unfold wait. cbn [snd trace self fst].
  destruct (fate_of hw (trace w) st (Some d)); cbn [fst snd trace self run].
  - rewrite Hok. repeat split. exact Hw.
  - rewrite Hf. repeat split; [ exact Hw | ].
    exists sf. split; [ reflexivity | exact Ef ].
  - rewrite Hpd. repeat split; [ exact Hw | ].
    exists sp. split; [ reflexivity | exact Epd ].
Qed.

(** Reading the device: what is read satisfies [I]. *)
Lemma obs_get_self_bind {B} (k : device -> M device B) s s1 :
  (forall d, I d -> observed m I E s (k d) s1) ->
  observed m I E s (bind get_self k) s1.
Proof. intros Hk w Hw. exact (Hk (self w) Hw w Hw). Qed.

(** Reading the parameters: the value read is passed on. *)
Lemma obs_params_attr_bind {B} (k : DetectorParams -> M device B) s s1 :
  (forall d p, I d -> detector_params d = Some p ->
               observed m I E s (k p) s1) ->
  (forall d, I d -> detector_params d = None -> E AttributeError s) ->
  observed m I E s (bind params_attr k) s1.
Proof.
  intros Hk Hnone w Hw. unfold params_attr, bind, get_self.
  destruct (detector_params (self w)) as [p | ] eqn:Hd.
  - exact (Hk (self w) p Hw Hd w Hw).
  - exists []. cbn. rewrite app_nil_r. repeat split; [ exact Hw | ].
    exists s. split; [ reflexivity | exact (Hnone (self w) Hw Hd) ].
Qed.

Lemma obs_assert_params_bind {B} (k : DetectorParams -> M device B) s s1 :
  (forall d p, I d -> detector_params d = Some p ->
               observed m I E s (k p) s1) ->
  (forall d, I d -> detector_params d = None -> E AssertionError s) ->
  observed m I E s (bind assert_params k) s1.
Proof.
  intros Hk Hnone w Hw. unfold assert_params, bind, get_self.
  destruct (detector_params (self w)) as [p | ] eqn:Hd.
  - exact (Hk (self w) p Hw Hd w Hw).
  - exists []. cbn. rewrite app_nil_r. repeat split; [ exact Hw | ].
    exists s. split; [ reflexivity | exact (Hnone (self w) Hw Hd) ].
Qed.

Lemma obs_assign_filewriters_finished st s :
  (forall d,
      I d ->
      I {| detector_params := detector_params d;
           filewriters_finished := Some st |}) ->
  observed m I E s (assign_filewriters_finished st) s.
Proof.
  intros HI w Hw. exists []. cbn. rewrite app_nil_r.
  repeat split. exact (HI (self w) Hw).
Qed.

End Rules.

Create HintDb observed discriminated.

(** Side conditions: a monitor's step, what a fault may leave, what [I]
    says. *)
Ltac obs_side :=
  solve [ reflexivity
        | exact I
        | discriminate
        | congruence
        | eexists; split; [ reflexivity | first [ reflexivity | exact I ] ]
        | intros ? ?; first [ exact I | assumption ]
        | intros ? [? ?]; split; [ assumption | discriminate ] ].

Ltac obs_leaf hw :=
  first
    [ apply obs_ret
    | apply obs_raise; obs_side
    | apply obs_issue; cbn; obs_side
    | apply obs_get_history
    | apply (obs_get_float hw)
    | apply (obs_get_int hw)
    | apply (obs_success hw)
    | apply obs_assign_filewriters_finished; obs_side
    | apply (obs_wait hw); cbn; obs_side
    | solve [ eauto 2 with observed ] ].

(** What is known of the device that was read. *)
Ltac obs_device H :=
  first
    [ progress unfold holding in H
    | progress unfold armed_with in H; destruct H as [H ?]
    | idtac ].

(** The parameters read are the ones the device is known to hold. *)
Ltac obs_params d p Hd Hp :=
  intros d p Hd Hp; obs_device Hd;
  try (rewrite Hd in Hp; injection Hp as Hp; subst p).

Ltac obs_no_params :=
  let d := fresh "d" in
  let Hd := fresh "Hd" in
  let Hn := fresh "Hn" in
  intros d Hd Hn; obs_device Hd; first [ congruence | obs_side ].

(** Walks a method body.  The value of a single operation is passed on as
    it is; a branch or a call is closed on its own and only the monitor's
    state is passed on. *)
Ltac obs_step hw :=
  cbv beta zeta;
  lazymatch goal with
  | |- observed _ _ _ _ (bind (bind _ _) _) _ => apply obs_assoc
  | |- observed _ _ _ _ (bind (ret _) _) _ => apply obs_ret_bind
  | |- observed _ _ _ _ (bind (sig_set _ _) _) _ => unfold sig_set at 1
  | |- observed _ _ _ _ (bind (sig_put _ _) _) _ => unfold sig_put at 1
  | |- observed _ _ _ _ (bind (await_value _ _) _) _ =>
      unfold await_value at 1
  | |- observed _ _ _ _ (bind params_attr _) _ =>
      let d := fresh "d" in
      let p := fresh "p" in
      let Hd := fresh "Hd" in
      let Hp := fresh "Hp" in
      apply obs_params_attr_bind; [ obs_params d p Hd Hp | obs_no_params ]
  | |- observed _ _ _ _ (bind assert_params _) _ =>
      let d := fresh "d" in
      let p := fresh "p" in
      let Hd := fresh "Hd" in
      let Hp := fresh "Hp" in
      apply obs_assert_params_bind; [ obs_params d p Hd Hp | obs_no_params ]
  | |- observed _ _ _ _ (bind get_self _) _ =>
      let d := fresh "d" in
      let Hd := fresh "Hd" in
      apply obs_get_self_bind; intros d Hd; obs_device Hd
  | |- observed _ _ _ _ (bind _ _) _ => eapply obs_bind; [ | intros ? ]
  | |- observed _ _ _ _ (sig_set _ _) _ => unfold sig_set at 1
  | |- observed _ _ _ _ (sig_put _ _) _ => unfold sig_put at 1
  | |- observed _ _ _ _ (await_value _ _) _ => unfold await_value at 1
  | |- observed _ _ _ _ (if ?b then _ else _) _ =>
      destruct b eqn:?; try congruence
  | |- observed _ _ _ _ (match ?x with _ => _ end) _ =>
      destruct x eqn:?; try congruence
  | |- observed _ _ _ _ _ _ => obs_leaf hw
  end.

Ltac obs_walk hw := repeat obs_step hw.

Section Faults.
Variable hw : hardware.

Lemma disciplined_change_roi_mode enable :
  observed fault_monitor any_device fault_state false
    (change_roi_mode hw enable) false.
Proof. unfold change_roi_mode. obs_walk hw. Qed.

Lemma disciplined_set_detector_threshold energy tolerance :
  observed fault_monitor any_device fault_state false
    (set_detector_threshold hw energy tolerance) false.
Proof. unfold set_detector_threshold. obs_walk hw. Qed.

Lemma disciplined_set_cam_pvs :
  observed fault_monitor any_device fault_state false set_cam_pvs false.
Proof. unfold set_cam_pvs. obs_walk hw. Qed.

Lemma disciplined_set_odin_pvs :
  observed fault_monitor any_device fault_state false (set_odin_pvs hw) false.
Proof. unfold set_odin_pvs. obs_walk hw. Qed.

Lemma disciplined_set_mx_settings_pvs :
  observed fault_monitor any_device fault_state false set_mx_settings_pvs false.
Proof. unfold set_mx_settings_pvs, get_beam_position_pixels. obs_walk hw. Qed.

Lemma disciplined_set_num_triggers_and_captures :
  observed fault_monitor any_device fault_state false
    set_num_triggers_and_captures false.
Proof. unfold set_num_triggers_and_captures. obs_walk hw. Qed.

Lemma disciplined_arm_detector :
  observed fault_monitor any_device fault_state false (arm_detector hw) false.
Proof.
  unfold arm_detector, wait_for_stale_parameters,
    forward_bit_depth_to_filewriter.
  obs_walk hw.
Qed.

Hint Resolve disciplined_change_roi_mode disciplined_set_detector_threshold
  disciplined_set_cam_pvs disciplined_set_odin_pvs
  disciplined_set_mx_settings_pvs disciplined_set_num_triggers_and_captures
  disciplined_arm_detector : observed.

Lemma disciplined_stage :
  observed fault_monitor any_device fault_state false (stage hw) false.
Proof. unfold stage, enable_roi_mode. obs_walk hw. Qed.

Lemma disciplined_unstage :
  observed fault_monitor any_device fault_state false (unstage hw) false.
Proof. unfold unstage, disable_roi_mode, disarm_detector. obs_walk hw. Qed.

(** From the monitor to the plain statement. *)
Lemma disciplined_stops {A} (c : M device A) :
  observed fault_monitor any_device fault_state false c false ->
  forall w,
    exists new,
      trace (snd (c w)) = trace w ++ new
      /\ stops_at_failed_wait (fst (c w)) new.
Proof.
  intros Hc w. destruct (Hc w I) as [new [Ht [_ Hr]]].
  exists new. split; [ exact Ht | ]. unfold stops_at_failed_wait.
  destruct (fst (c w)) as [a | e | ].
  - exact (fault_monitor_sound new false Hr).
  - destruct Hr as [failed [Hrun He]]. unfold fault_state in He. subst failed.
    exact (fault_monitor_sound new _ Hrun).
  - contradiction.
Qed.

(** [stage] never blocks for ever and every wait it makes has a deadline.
    When it returns, every wait found its status finished.  When the fault
    of a wait ends it, that failed wait is the last thing [stage] issued:
    nothing is retried, undone or cleaned up.  Any other fault comes
    without a failed wait. *)
Theorem stage_stops_at_failed_wait (w : world device) :
  exists new,
    trace (snd (stage hw w)) = trace w ++ new
    /\ stops_at_failed_wait (fst (stage hw w)) new.
Proof. exact (disciplined_stops (stage hw) disciplined_stage w). Qed.

(** The same for [unstage]: a wait that fails ends it on the spot, so that
    the camera is not disarmed and the ROI geometry not restored. *)
Theorem unstage_stops_at_failed_wait (w : world device) :
  exists new,
    trace (snd (unstage hw w)) = trace w ++ new
    /\ stops_at_failed_wait (fst (unstage hw w)) new.
Proof. exact (disciplined_stops (unstage hw) disciplined_unstage w). Qed.

End Faults.

(** *** Arming *)

Section Arming.
Variable hw : hardware.

(** The configuration steps neither start the acquisition nor take a step
    of arming. *)
Section Configuration.
Variable P : event -> bool.
Variable Qs : list (event -> bool).
Hypothesis HP : P = acquire_started \/ P = nothing.
Hypothesis HQs : Qs = arming_steps \/ Qs = staging_steps.

Lemma configuring_change_roi_mode enable :
  observed (chain_monitor P) any_device any_state Qs
    (change_roi_mode hw enable) Qs.
Proof.
  destruct HP as [-> | ->], HQs as [-> | ->];
    unfold change_roi_mode; obs_walk hw.
Qed.

Lemma configuring_set_detector_threshold energy tolerance :
  observed (chain_monitor P) any_device any_state Qs
    (set_detector_threshold hw energy tolerance) Qs.
Proof.
  destruct HP as [-> | ->], HQs as [-> | ->];
    unfold set_detector_threshold; obs_walk hw.
Qed.

Lemma configuring_set_cam_pvs :
  observed (chain_monitor P) any_device any_state Qs set_cam_pvs Qs.
Proof.
  destruct HP as [-> | ->], HQs as [-> | ->]; unfold set_cam_pvs; obs_walk hw.
Qed.

Lemma configuring_set_odin_pvs :
  observed (chain_monitor P) any_device any_state Qs (set_odin_pvs hw) Qs.
Proof.
  destruct HP as [-> | ->], HQs as [-> | ->]; unfold set_odin_pvs; obs_walk hw.
Qed.

Lemma configuring_set_mx_settings_pvs :
  observed (chain_monitor P) any_device any_state Qs set_mx_settings_pvs Qs.
Proof.
  destruct HP as [-> | ->], HQs as [-> | ->];
    unfold set_mx_settings_pvs, get_beam_position_pixels; obs_walk hw.
Qed.

Lemma configuring_set_num_triggers_and_captures :
  observed (chain_monitor P) any_device any_state Qs
    set_num_triggers_and_captures Qs.
Proof.
  destruct HP as [-> | ->], HQs as [-> | ->];
    unfold set_num_triggers_and_captures; obs_walk hw.
Qed.

End Configuration.

Ltac obs_configuring :=
  first
    [ eapply configuring_change_roi_mode
    | eapply configuring_set_detector_threshold
    | eapply configuring_set_cam_pvs
    | eapply configuring_set_odin_pvs
    | eapply configuring_set_mx_settings_pvs
    | eapply configuring_set_num_triggers_and_captures ];
  solve [ left; reflexivity | right; reflexivity ].

Hint Extern 1 (observed (chain_monitor _) _ _ _ _ _) =>
  obs_configuring : observed.

(** [stage] starts the acquisition only after the steps of arming. *)
Lemma stage_guards_acquire :
  observed (chain_monitor acquire_started) any_device any_state
    arming_steps (stage hw) [].
Proof.
  unfold stage, enable_roi_mode, arm_detector, wait_for_stale_parameters,
    forward_bit_depth_to_filewriter.
  obs_walk hw.
Qed.

(** A [stage] that returns went through every step. *)
Lemma stage_completes_steps :
  observed (chain_monitor nothing) any_device any_state
    staging_steps (stage hw) [].
Proof.
  unfold stage, enable_roi_mode, arm_detector, wait_for_stale_parameters,
    forward_bit_depth_to_filewriter.
  obs_walk hw.
Qed.

(** In every run of [stage], the acquisition is started ([cam.acquire] set)
    only after these, in this order: the deadline-60 wait on the AND of the
    five configuration steps found it finished; the deadline-60 wait for
    stale_params = 0 found it; the bit depth was forwarded to the writer;
    the deadline-10 wait on the writer's capture and meta.ready found them.
    A [stage] that returns has moreover started the acquisition, seen it
    confirmed and seen fan.ready, in this order. *)
Theorem stage_arms_in_order (w : world device) :
  exists new,
    trace (snd (stage hw w)) = trace w ++ new
    /\ (forall pre e post,
          new = pre ++ e :: post -> acquire_started e = true ->
          ordered [config_settled; stale_cleared; data_type_forwarded;
                   capture_started] pre)
    /\ (forall a,
          fst (stage hw w) = Ok a ->
          ordered [config_settled; stale_cleared; data_type_forwarded;
                   capture_started; acquire_started; acquire_confirmed;
                   fan_ready_seen] new).
Proof.
  destruct (stage_guards_acquire w I) as [new [Ht _]].
  exists new. split; [ exact Ht | ]. split.
  - exact (guarded_by _ _ _ _ _ w new stage_guards_acquire I Ht).
  - intros a.
    exact (completed_by _ _ _ _ _ w new a stage_completes_steps I Ht).
Qed.

End Arming.

(** *** ROI mode off *)

Section RoiOff.
Variable hw : hardware.
Variable p : DetectorParams.
Hypothesis Hroi : use_roi_mode p = false.

Lemma stage_without_roi_writes :
  observed (never_monitor roi_write) (holding p) any_state tt (stage hw) tt.
Proof.
  assert (Hthreshold : forall energy tolerance,
    observed (never_monitor roi_write) (holding p) any_state tt
      (set_detector_threshold hw energy tolerance) tt)
    by (intros; unfold set_detector_threshold; obs_walk hw).
  assert (Hcam : observed (never_monitor roi_write) (holding p) any_state tt
                   set_cam_pvs tt)
    by (unfold set_cam_pvs; obs_walk hw).
  assert (Hodin : observed (never_monitor roi_write) (holding p) any_state tt
                    (set_odin_pvs hw) tt)
    by (unfold set_odin_pvs; obs_walk hw).
  assert (Hmx : observed (never_monitor roi_write) (holding p) any_state tt
                  set_mx_settings_pvs tt)
    by (unfold set_mx_settings_pvs, get_beam_position_pixels; obs_walk hw).
  assert (Hcounts : observed (never_monitor roi_write) (holding p) any_state tt
                      set_num_triggers_and_captures tt)
    by (unfold set_num_triggers_and_captures; obs_walk hw).
  unfold stage, enable_roi_mode, arm_detector, wait_for_stale_parameters,
    forward_bit_depth_to_filewriter.
  obs_walk hw.
Qed.

End RoiOff.

(** With ROI mode off in the parameters, [stage] writes neither the camera's
    ROI flag nor the writer's image size or chunk counts. *)
Theorem stage_roi_off_leaves_geometry hw p (w : world device) :
  detector_params (self w) = Some p ->
  use_roi_mode p = false ->
  exists new,
    trace (snd (stage hw w)) = trace w ++ new
    /\ forall e, In e new -> roi_write e = false.
Proof.
  intros Hp Hroi.
  exact (never_by _ _ _ _ w (stage_without_roi_writes hw p Hroi) Hp).
Qed.

Lemma stage_roi_off_leaves_geometry_witness :
  exists new,
    trace (snd (stage healthy_hw free_running)) = trace free_running ++ new
    /\ forall e, In e new -> roi_write e = false.
Proof.
  exact (stage_roi_off_leaves_geometry healthy_hw free_run_params free_running
           eq_refl eq_refl).
Defined.

(** *** Unstaging *)

Section Unstaging.
Variable hw : hardware.

Lemma unstage_guards_disarm :
  observed (chain_monitor disarmed) any_device any_state
    [start_timeout_set; waited_30] (unstage hw) [].
Proof.
  assert (Hroi : forall enable,
    observed (chain_monitor disarmed) any_device any_state []
      (change_roi_mode hw enable) [])
    by (intros; unfold change_roi_mode; obs_walk hw).
  unfold unstage, disable_roi_mode, disarm_detector. obs_walk hw.
Qed.

Lemma unstage_guards_roi :
  observed (chain_monitor roi_write) any_device any_state
    [start_timeout_set; waited_30; disarmed] (unstage hw) [].
Proof.
  assert (Hroi : forall enable,
    observed (chain_monitor roi_write) any_device any_state []
      (change_roi_mode hw enable) [])
    by (intros; unfold change_roi_mode; obs_walk hw).
  unfold unstage, disable_roi_mode, disarm_detector. obs_walk hw.
Qed.

Lemma unstage_completes_steps :
  observed (chain_monitor nothing) any_device any_state
    [start_timeout_set; waited_30; disarmed; roi_write] (unstage hw) [].
Proof.
  assert (Hroi : forall enable,
    observed (chain_monitor nothing) any_device any_state [roi_write]
      (change_roi_mode hw enable) [])
    by (intros; unfold change_roi_mode; obs_walk hw).
  unfold unstage, disable_roi_mode, disarm_detector. obs_walk hw.
Qed.

(** In every run of [unstage], the camera is disarmed ([cam.acquire.put])
    only after the writer's start timeout was put to 1 and then a
    deadline-30 wait found its status finished, and the ROI flag and the
    writer's geometry are written only after the camera was disarmed.  An
    [unstage] that returns did all of these. *)
Theorem unstage_disarms_in_order (w : world device) :
  exists new,
    trace (snd (unstage hw w)) = trace w ++ new
    /\ (forall pre e post,
          new = pre ++ e :: post -> disarmed e = true ->
          ordered [start_timeout_set; waited_30] pre)
    /\ (forall pre e post,
          new = pre ++ e :: post -> roi_write e = true ->
          ordered [start_timeout_set; waited_30; disarmed] pre)
    /\ (forall ok,
          fst (unstage hw w) = Ok ok ->
          ordered [start_timeout_set; waited_30; disarmed; roi_write] new).
Proof.
  destruct (unstage_guards_disarm w I) as [new [Ht _]].
  exists new. split; [ exact Ht | ]. split; [ | split ].
  - exact (guarded_by _ _ _ _ _ w new unstage_guards_disarm I Ht).
  - exact (guarded_by _ _ _ _ _ w new unstage_guards_roi I Ht).
  - intros ok.
    exact (completed_by _ _ _ _ _ w new ok unstage_completes_steps I Ht).
Qed.

Section Mode.
Variable p : DetectorParams.

Lemma unstage_free_run_guards :
  TriggerMode_eq (trigger_mode p) FREE_RUN = true ->
  observed (chain_monitor start_timeout_set) (holding p) any_state
    [frames_captured; odin_stopped; stop_confirmed] (unstage hw) [].
Proof.
  intros Hmode.
  assert (Hroi : forall enable,
    observed (chain_monitor start_timeout_set) (holding p) any_state []
      (change_roi_mode hw enable) [])
    by (intros; unfold change_roi_mode; obs_walk hw).
  unfold unstage, disable_roi_mode, disarm_detector. obs_walk hw.
Qed.

Lemma unstage_set_frames_skips :
  TriggerMode_eq (trigger_mode p) FREE_RUN = false ->
  observed (never_monitor free_run_only) (holding p) any_state tt
    (unstage hw) tt.
Proof.
  intros Hmode.
  assert (Hroi : forall enable,
    observed (never_monitor free_run_only) (holding p) any_state tt
      (change_roi_mode hw enable) tt)
    by (intros; unfold change_roi_mode; obs_walk hw).
  unfold unstage, disable_roi_mode, disarm_detector. obs_walk hw.
Qed.

End Mode.

End Unstaging.

(** With the trigger mode FREE_RUN, [unstage] puts the writer's start
    timeout only after these, in this order: the deadline-30 wait for the
    captured-frame counter found it, Odin was stopped, the deadline-5 wait
    on the stop found it finished. *)
Theorem unstage_free_run_stops_odin_first hw p (w : world device) :
  detector_params (self w) = Some p ->
  trigger_mode p = FREE_RUN ->
  exists new,
    trace (snd (unstage hw w)) = trace w ++ new
    /\ forall pre e post,
         new = pre ++ e :: post -> start_timeout_set e = true ->
         ordered [frames_captured; odin_stopped; stop_confirmed] pre.
Proof.
  intros Hp Hmode.
  assert (Hm : TriggerMode_eq (trigger_mode p) FREE_RUN = true)
    by (rewrite Hmode; reflexivity).
  destruct (unstage_free_run_guards hw p Hm w Hp) as [new [Ht _]].
  exists new. split; [ exact Ht | ].
  exact (guarded_by _ _ _ _ _ w new (unstage_free_run_guards hw p Hm) Hp Ht).
Qed.

Lemma unstage_free_run_stops_odin_first_witness :
  exists new,
    trace (snd (unstage healthy_hw free_running)) = trace free_running ++ new
    /\ forall pre e post,
         new = pre ++ e :: post -> start_timeout_set e = true ->
         ordered [frames_captured; odin_stopped; stop_confirmed] pre.
Proof.
  exact (unstage_free_run_stops_odin_first healthy_hw free_run_params
           free_running eq_refl eq_refl).
Defined.

(** With the trigger mode SET_FRAMES, [unstage] neither stops Odin nor
    makes a deadline-5 wait. *)
Theorem unstage_set_frames_leaves_odin hw p (w : world device) :
  detector_params (self w) = Some p ->
  trigger_mode p = SET_FRAMES ->
  exists new,
    trace (snd (unstage hw w)) = trace w ++ new
    /\ forall e, In e new -> free_run_only e = false.
Proof.
  intros Hp Hmode.
  assert (Hm : TriggerMode_eq (trigger_mode p) FREE_RUN = false)
    by (rewrite Hmode; reflexivity).
  exact (never_by _ _ _ _ w (unstage_set_frames_skips hw p Hm) Hp).
Qed.

Lemma unstage_set_frames_leaves_odin_witness :
  exists new,
    trace (snd (unstage healthy_hw configured)) = trace configured ++ new
    /\ forall e, In e new -> free_run_only e = false.
Proof.
  exact (unstage_set_frames_leaves_odin healthy_hw test_params configured
           eq_refl eq_refl).
Defined.

(** *** What a call that returns went through *)

Lemma bind_returns {D A B} (c : M D A) (k : A -> M D B) w b w' :
  bind c k w = (Ok b, w') ->
  exists a w1, c w = (Ok a, w1) /\ k a w1 = (Ok b, w').
Proof.
  unfold bind. destruct (c w) as [[a | e | ] w1]; intros H;
    [ | discriminate | discriminate ].
  exists a, w1. split; [ reflexivity | exact H ].
Qed.

Lemma wait_returns {D} hw st t (w : world D) u w' :
  wait hw st t w = (Ok u, w') ->
  w' = World (self w) (trace w ++ [EvWait st t DoneOk]).
Proof.
  unfold wait. destruct (fate_of hw (trace w) st t); [ | | destruct t ];
    intros H; try discriminate.
  injection H as _ <-. reflexivity.
Qed.

(** What the last part of a body establishes, the body establishes. *)
Lemma tail_bind {A B} (c : M device A) (k : A -> M device B)
  (Q : world device -> Prop) :
  (forall a w b w', k a w = (Ok b, w') -> Q w') ->
  forall w b w', bind c k w = (Ok b, w') -> Q w'.
Proof.
  intros Hk w b w' H. apply bind_returns in H.
  destruct H as (a & w1 & _ & H). exact (Hk a w1 b w' H).
Qed.

Ltac head_of t := lazymatch t with | ?f _ => head_of f | _ => t end.

Ltac returned_leaf H := inversion H; subst; clear H.

(** Follows a run that returned through the body, operation by
    operation. *)
Ltac returned H :=
  cbv beta zeta in H;
  cbn [self trace detector_params filewriters_finished] in H;
  lazymatch type of H with
  | bind _ _ _ = _ =>
      let H1 := fresh "H1" in
      let H2 := fresh "H2" in
      apply bind_returns in H;
      destruct H as (?a & ?w1 & H1 & H2);
      returned H1; returned H2
  | wait _ _ _ _ = _ => apply wait_returns in H; subst
  | ret _ _ = _ => unfold ret in H; returned_leaf H
  | raise _ _ = _ => discriminate H
  | issue _ _ = _ => unfold issue in H; returned_leaf H
  | get_self _ = _ => unfold get_self in H; returned_leaf H
  | get_history _ = _ => unfold get_history in H; returned_leaf H
  | get_float _ _ _ = _ => unfold get_float in H; returned_leaf H
  | get_int _ _ _ = _ => unfold get_int in H; returned_leaf H
  | success _ _ _ = _ => unfold success in H; returned_leaf H
  | assign_filewriters_finished _ _ = _ =>
      unfold assign_filewriters_finished in H; returned_leaf H
  | (_, _) = _ => first [ discriminate H | returned_leaf H ]
  | ?f ?w = _ =>
      lazymatch f with
      | match ?x with _ => _ end => destruct x eqn:?; returned H
      | _ => let hd := head_of f in unfold hd in H; returned H
      end
  end.

Section Returned.
Variable hw : hardware.

Lemma arm_detector_assigns w u w' :
  arm_detector hw w = (Ok u, w') ->
  filewriters_finished (self w') = Some SOdinFinished.
Proof. intros H. returned H. reflexivity. Qed.

Ltac tail_step :=
  cbv beta zeta;
  lazymatch goal with
  | |- forall w b w', arm_detector _ w = _ -> _ =>
      intros ? ? ?; apply arm_detector_assigns
  | |- forall w b w', bind _ _ w = _ -> _ => apply tail_bind; intros ?
  | |- forall w b w', (if ?c then _ else _) w = _ -> _ => destruct c
  | |- forall w b w', (match ?x with _ => _ end) w = _ -> _ => destruct x
  | |- forall w b w', raise _ w = _ -> _ => intros ? ? ? ?; discriminate
  end.

Lemma stage_assigns : forall w u w',
  stage hw w = (Ok u, w') ->
  filewriters_finished (self w') = Some SOdinFinished.
Proof. unfold stage. repeat tail_step. Qed.

Section Armed.
Variable p : DetectorParams.
Variable consts : DetectorSizeConstants.
Hypothesis Hconsts : detector_size_constants p = Some consts.

Lemma unstage_when_armed :
  observed (never_monitor nothing) (armed_with p) wait_faults_only tt
    (unstage hw) tt.
Proof.
  assert (Hroi : forall enable,
    observed (never_monitor nothing) (armed_with p) wait_faults_only tt
      (change_roi_mode hw enable) tt)
    by (intros; unfold change_roi_mode; obs_walk hw).
  unfold unstage, disable_roi_mode, disarm_detector. obs_walk hw.
Qed.

End Armed.

(** [stage] and then [unstage].  A [stage] that returned has left the
    parameters as they were and has stored the writer's finished status, so
    that the [unstage] that follows finds both: it returns, or ends with
    the fault of a wait, and with no other fault. *)
Theorem unstage_after_stage p consts (w : world device) u :
  detector_params (self w) = Some p ->
  detector_size_constants p = Some consts ->
  fst (stage hw w) = Ok u ->
  detector_params (self (snd (stage hw w))) = Some p
  /\ filewriters_finished (self (snd (stage hw w))) = Some SOdinFinished
  /\ match fst (unstage hw (snd (stage hw w))) with
     | Ok _ => True
     | Raise e => is_wait_fault e = true
     | Hang => False
     end.
Proof.
  intros Hp Hconsts Hu.
  assert (Hparams : detector_params (self (snd (stage hw w))) = Some p)
    by exact (proj2 (Detector.safe_stage hw w p Hp)).
  assert (Hwriter :
    filewriters_finished (self (snd (stage hw w))) = Some SOdinFinished).
  { destruct (stage hw w) as [r w'] eqn:Hs. cbn [fst] in Hu. subst r.
    exact (stage_assigns w u w' Hs). }
  split; [ exact Hparams | ]. split; [ exact Hwriter | ].
  assert (Harmed : armed_with p (self (snd (stage hw w))))
    by (split; [ exact Hparams | rewrite Hwriter; discriminate ]).
  destruct (unstage_when_armed p consts Hconsts _ Harmed)
    as [new [_ [_ Hr]]].
  destruct (fst (unstage hw (snd (stage hw w)))) as [ok | e | ].
  - exact I.
  - destruct Hr as [s' [_ He]]. exact He.
  - exact Hr.
Qed.

(** The value [unstage] returns is the state of Odin checked right after
    the camera was disarmed, on the history up to there; the camera is
    disarmed once, and what follows (the ROI switch back, its wait, its
    logged failure) has no part in the value. *)
Theorem unstage_returns_state_after_disarm (w : world device) ok :
  fst (unstage hw w) = Ok ok ->
  exists before after,
    trace (snd (unstage hw w))
      = trace w ++ before ++ EvPut (Cam cam_acquire) (VInt 0) :: after
    /\ ok = check_odin_state hw
              (trace w ++ before ++ [EvPut (Cam cam_acquire) (VInt 0)])
    /\ (forall e, In e before -> disarmed e = false)
    /\ (forall e, In e after -> disarmed e = false).
Proof.
  intros Hok. destruct (unstage hw w) as [r w'] eqn:H.
  cbn [fst] in Hok. subst r. cbn [snd]. destruct w as [[dp ff] h].
  returned H; cbn [trace]; rewrite <- ?app_assoc; cbn [app];
    first
      [ eexists [_; _; _; _]; eexists;
        split; [ cbn [app]; reflexivity | ]
      | eexists [_; _; _; _; _; _; _; _; _]; eexists;
        split; [ cbn [app]; reflexivity | ] ];
    (split; [ rewrite <- ?app_assoc; reflexivity | ]);
    split; intros e He; cbn [In] in He;
    repeat (destruct He as [<- | He]; [ reflexivity | ]); destruct He.
Qed.

End Returned.

Lemma unstage_after_stage_witness :
  detector_params (self (snd (stage healthy_hw configured)))
    = Some test_params
  /\ filewriters_finished (self (snd (stage healthy_hw configured)))
     = Some SOdinFinished
  /\ match fst (unstage healthy_hw (snd (stage healthy_hw configured))) with
     | Ok _ => True
     | Raise e => is_wait_fault e = true
     | Hang => False
     end.
Proof.
  refine (unstage_after_stage healthy_hw test_params _ configured tt
            eq_refl eq_refl _).
  vm_compute. reflexivity.
Defined.

Lemma unstage_returns_state_after_disarm_witness :
  exists before after,
    trace (snd (unstage healthy_hw (snd (stage healthy_hw configured))))
      = trace (snd (stage healthy_hw configured))
          ++ before ++ EvPut (Cam cam_acquire) (VInt 0) :: after
    /\ true = check_odin_state healthy_hw
                (trace (snd (stage healthy_hw configured))
                   ++ before ++ [EvPut (Cam cam_acquire) (VInt 0)])
    /\ (forall e, In e before -> disarmed e = false)
    /\ (forall e, In e after -> disarmed e = false).
Proof.
  apply (unstage_returns_state_after_disarm healthy_hw
           (snd (stage healthy_hw configured)) true).
  vm_compute. reflexivity.
Defined.

(** *** Every set is waited for *)

Lemma seen_finished_app_l s h1 h2 :
  seen_finished s h1 -> seen_finished s (h1 ++ h2).
Proof.
  intros (st & t & Hin & Hs). exists st, t.
  split; [ apply in_or_app; left; exact Hin | exact Hs ].
Qed.

Lemma seen_finished_app_r s h1 h2 :
  seen_finished s h2 -> seen_finished s (h1 ++ h2).
Proof.
  intros (st & t & Hin & Hs). exists st, t.
  split; [ apply in_or_app; right; exact Hin | exact Hs ].
Qed.

Lemma watched_app held1 held2 h1 h2 :
  watched held1 h1 ->
  (forall s, In s held1 -> In s held2 \/ seen_finished s h2) ->
  watched held2 h2 ->
  watched held2 (h1 ++ h2).
Proof.
  intros H1 Hheld H2. induction h1 as [ | e h1 IH]; [ exact H2 | ].
  cbn [app watched] in *. destruct H1 as [He H1].
  split; [ | exact (IH H1) ].
  destruct e as [sig v | | | | ]; try exact I.
  destruct He as [He | He].
  - destruct (Hheld _ He) as [Hin | Hseen].
    + left. exact Hin.
    + right. apply seen_finished_app_r. exact Hseen.
  - right. apply seen_finished_app_l. exact He.
Qed.

(** With nothing held, every set is followed by the wait that saw it. *)
Lemma watched_nil new :
  watched [] new ->
  forall pre sig v post,
    new = pre ++ EvSet sig v :: post ->
    exists st timeout,
      In (EvWait st timeout DoneOk) post
      /\ In (SSet sig v) (ApertureScatterguard.leaves st).
Proof.
  intros H pre. revert new H.
  induction pre as [ | e pre IH]; intros new H sig v post ->;
    cbn [app watched] in H; destruct H as [He H].
  - destruct He as [[] | He]. exact He.
  - exact (IH _ H sig v post eq_refl).
Qed.

Lemma watched_held held new :
  watched held new ->
  forall pre sig v post,
    new = pre ++ EvSet sig v :: post ->
    In (SSet sig v) held
    \/ exists st timeout,
         In (EvWait st timeout DoneOk) post
         /\ In (SSet sig v) (ApertureScatterguard.leaves st).
Proof.
  intros H pre. revert new H.
  induction pre as [ | e pre IH]; intros new H sig v post ->;
    cbn [app watched] in H; destruct H as [He H].
  - exact He.
  - exact (IH _ H sig v post eq_refl).
Qed.

Section Watching.
Variable hw : hardware.

Lemma watch_bind {A B} pre (c : M device A) mid (k : A -> M device B) post :
  watches pre c mid -> (forall a, watches (mid a) (k a) post) ->
  watches pre (bind c k) post.
Proof.
  intros Hc Hk w b w' H. apply bind_returns in H.
  destruct H as (a & w1 & H1 & H2).
  destruct (Hc w a w1 H1) as (n1 & Ht1 & Hw1 & Hp1).
  destruct (Hk a w1 b w' H2) as (n2 & Ht2 & Hw2 & Hp2).
  exists (n1 ++ n2). rewrite Ht2, Ht1, app_assoc.
  split; [ reflexivity | ]. split.
  - exact (watched_app _ _ _ _ Hw1 Hp2 Hw2).
  - intros s Hs. destruct (Hp1 s Hs) as [Hmid | Hseen].
    + destruct (Hp2 s Hmid) as [Hpost | Hseen].
      * left. exact Hpost.
      * right. apply seen_finished_app_r. exact Hseen.
    + right. apply seen_finished_app_l. exact Hseen.
Qed.

(** What a method does with nothing held, it does beside what is held. *)
Lemma watch_frame {A} pre (c : M device A) post :
  watches [] c post -> watches pre c (fun a => post a ++ pre).
Proof.
  intros Hc w a w' H. destruct (Hc w a w' H) as (new & Ht & Hw & _).
  exists new. split; [ exact Ht | ]. split.
  - clear Ht. induction new as [ | e new IH]; [ exact I | ].
    cbn [watched] in *. destruct Hw as [He Hw].
    split; [ | exact (IH Hw) ].
    destruct e as [sig v | | | | ]; try exact I.
    destruct He as [He | He]; [ left; apply in_or_app; left | right ];
      exact He.
  - intros s Hs. left. apply in_or_app. right. exact Hs.
Qed.

Lemma watched_mono held held' h :
  (forall s, In s held -> In s held') -> watched held h -> watched held' h.
Proof.
  intros Hheld. induction h as [ | e h IH]; [ intros; exact I | ].
  cbn [watched]. intros [He H]. split; [ | exact (IH H) ].
  destruct e as [sig v | | | | ]; try exact I.
  destruct He as [He | He]; [ left; exact (Hheld _ He) | right; exact He ].
Qed.

(** More may be said to be held. *)
Lemma watch_weaken {A} pre (c : M device A) post post' :
  watches pre c post' ->
  (forall a s, In s (post' a) -> In s (post a)) ->
  watches pre c post.
Proof.
  intros Hc Hpost w a w' H. destruct (Hc w a w' H) as (new & Ht & Hw & Hp).
  exists new. split; [ exact Ht | ]. split.
  - exact (watched_mono _ _ _ (Hpost a) Hw).
  - intros s Hs. destruct (Hp s Hs) as [Hin | Hseen];
      [ left; exact (Hpost a s Hin) | right; exact Hseen ].
Qed.

(** An operation that adds nothing to the history. *)
Lemma watch_silent {A} pre (c : M device A) post :
  (forall w a w', c w = (Ok a, w') -> trace w' = trace w) ->
  (forall a s, In s pre -> In s (post a)) ->
  watches pre c post.
Proof.
  intros Hc Hpost w a w' H. exists []. rewrite app_nil_r.
  split; [ exact (Hc w a w' H) | ]. split; [ exact I | ].
  intros s Hs. left. exact (Hpost a s Hs).
Qed.

Lemma watch_ret {A} pre (a : A) post :
  (forall s, In s pre -> In s (post a)) -> watches pre (ret a) post.
Proof.
  intros Hpost w b w' H. injection H as <- <-. exists [].
  rewrite app_nil_r. repeat split. intros s Hs. left. exact (Hpost s Hs).
Qed.

Lemma watch_ret_keep {A} pre (a : A) : watches pre (ret a) (fun _ => pre).
Proof. apply watch_ret. intros s Hs. exact Hs. Qed.

Lemma watch_keep {A} pre (c : M device A) :
  (forall w a w', c w = (Ok a, w') -> trace w' = trace w) ->
  watches pre c (fun _ => pre).
Proof. intros Hc. apply watch_silent; [ exact Hc | intros _ s Hs; exact Hs ]. Qed.

Lemma watch_raise {A} pre e post : watches pre (@raise device A e) post.
Proof. intros w a w' H. discriminate H. Qed.

Lemma watch_assert_params pre : watches pre assert_params (fun _ => pre).
Proof.
  apply watch_keep. intros w a w'. unfold assert_params, bind, get_self.
  destruct (detector_params (self w)); intros H; injection H as _ <-;
    reflexivity.
Qed.

Lemma watch_params_attr pre : watches pre params_attr (fun _ => pre).
Proof.
  apply watch_keep. intros w a w'. unfold params_attr, bind, get_self.
  destruct (detector_params (self w)); intros H; injection H as _ <-;
    reflexivity.
Qed.

Lemma watch_get_self pre : watches pre get_self (fun _ => pre).
Proof. apply watch_keep. intros w a w' H. injection H as _ <-. reflexivity. Qed.

Lemma watch_get_history pre : watches pre get_history (fun _ => pre).
Proof. apply watch_keep. intros w a w' H. injection H as _ <-. reflexivity. Qed.

Lemma watch_get_float sig pre : watches pre (get_float hw sig) (fun _ => pre).
Proof. apply watch_keep. intros w a w' H. injection H as _ <-. reflexivity. Qed.

Lemma watch_get_int sig pre : watches pre (get_int hw sig) (fun _ => pre).
Proof. apply watch_keep. intros w a w' H. injection H as _ <-. reflexivity. Qed.

Lemma watch_success st pre : watches pre (success hw st) (fun _ => pre).
Proof. apply watch_keep. intros w a w' H. injection H as _ <-. reflexivity. Qed.

Lemma watch_await_value sig v pre :
  watches pre (await_value sig v) (fun _ => pre).
Proof. apply watch_keep. intros w a w' H. injection H as _ <-. reflexivity. Qed.

Lemma watch_assign_filewriters_finished st pre :
  watches pre (assign_filewriters_finished st) (fun _ => pre).
Proof. apply watch_keep. intros w a w' H. injection H as _ <-. reflexivity. Qed.

(** A set: its status is handed back. *)
Lemma watch_sig_set sig v pre :
  watches pre (sig_set sig v)
    (fun st => ApertureScatterguard.leaves st ++ pre).
Proof.
  intros w a w' H. injection H as <- <-. exists [EvSet sig v].
  split; [ reflexivity | ]. split.
  - split; [ left; left; reflexivity | exact I ].
  - intros s Hs. left. apply in_or_app. right. exact Hs.
Qed.

(** Any other operation. *)
Lemma watch_issue ev pre :
  (forall sig v, ev <> EvSet sig v) ->
  watches pre (issue ev) (fun _ => pre).
Proof.
  intros Hev w a w' H. injection H as _ <-. exists [ev].
  split; [ reflexivity | ]. split.
  - split; [ | exact I ].
    destruct ev as [sig v | | | | ]; try exact I.
    destruct (Hev sig v eq_refl).
  - intros s Hs. left. exact Hs.
Qed.

Lemma watch_sig_put sig v pre :
  watches pre (sig_put sig v) (fun _ => pre).
Proof. apply watch_issue. intros; discriminate. Qed.

(** A wait that returns saw its status finished: what it is the AND of is
    held no longer. *)
Lemma watch_wait st timeout pre :
  (forall s, In s pre -> In s (ApertureScatterguard.leaves st)) ->
  watches pre (wait hw st timeout) (fun _ => []).
Proof.
  intros Hpre w a w' H. apply wait_returns in H. subst w'.
  exists [EvWait st timeout DoneOk]. split; [ reflexivity | ]. split.
  - split; exact I.
  - intros s Hs. right. exists st, timeout.
    split; [ left; reflexivity | exact (Hpre s Hs) ].
Qed.

Ltac watch_side :=
  solve [ intros; discriminate
        | intros; assumption
        | intros; cbn [ApertureScatterguard.leaves] in *;
          rewrite ?in_app_iff in *; cbn [In] in *; tauto ].

Create HintDb watches discriminated.

Ltac watch_exact :=
  first
    [ apply watch_raise
    | apply watch_sig_set
    | apply watch_sig_put
    | apply watch_assert_params
    | apply watch_params_attr
    | apply watch_get_self
    | apply watch_get_history
    | apply watch_get_float
    | apply watch_get_int
    | apply watch_success
    | apply watch_await_value
    | apply watch_assign_filewriters_finished
    | apply watch_issue; watch_side
    | apply watch_wait; watch_side
    | apply watch_ret_keep
    | apply watch_ret; watch_side
    | solve [ eauto 2 with watches ] ].

Ltac watch_leaf :=
  first [ watch_exact | eapply watch_weaken; [ watch_exact | watch_side ] ].

Ltac watch_step :=
  cbv beta zeta;
  lazymatch goal with
  | |- watches _ (bind _ _) _ => eapply watch_bind; [ | intros ? ]
  | |- watches _ (if ?b then _ else _) _ => destruct b
  | |- watches _ (match ?x with _ => _ end) _ => destruct x
  | |- watches _ _ _ => watch_leaf
  end.

Ltac watch_walk := repeat watch_step.

Lemma watch_change_roi_mode enable pre :
  watches pre (change_roi_mode hw enable) (fun _ => pre).
Proof.
  apply (watch_frame pre _ (fun _ => [])).
  unfold change_roi_mode. watch_walk.
Qed.

Lemma watch_set_detector_threshold energy tolerance pre :
  watches pre (set_detector_threshold hw energy tolerance)
    (fun st => ApertureScatterguard.leaves st ++ pre).
Proof.
  apply (watch_frame pre _ ApertureScatterguard.leaves).
  unfold set_detector_threshold. watch_walk.
Qed.

Lemma watch_set_cam_pvs pre :
  watches pre set_cam_pvs (fun st => ApertureScatterguard.leaves st ++ pre).
Proof.
  apply (watch_frame pre _ ApertureScatterguard.leaves).
  unfold set_cam_pvs. watch_walk.
Qed.

Lemma watch_set_odin_pvs pre :
  watches pre (set_odin_pvs hw)
    (fun st => ApertureScatterguard.leaves st ++ pre).
Proof.
  apply (watch_frame pre _ ApertureScatterguard.leaves).
  unfold set_odin_pvs. watch_walk.
Qed.

Lemma watch_set_mx_settings_pvs pre :
  watches pre set_mx_settings_pvs
    (fun st => ApertureScatterguard.leaves st ++ pre).
Proof.
  apply (watch_frame pre _ ApertureScatterguard.leaves).
  unfold set_mx_settings_pvs, get_beam_position_pixels. watch_walk.
Qed.

Lemma watch_set_num_triggers_and_captures pre :
  watches pre set_num_triggers_and_captures
    (fun st => ApertureScatterguard.leaves st ++ pre).
Proof.
  apply (watch_frame pre _ ApertureScatterguard.leaves).
  unfold set_num_triggers_and_captures. watch_walk.
Qed.

Lemma watch_arm_detector pre :
  watches pre (arm_detector hw) (fun _ => pre).
Proof.
  apply (watch_frame pre _ (fun _ => [])).
  unfold arm_detector, wait_for_stale_parameters,
    forward_bit_depth_to_filewriter.
  watch_walk.
Qed.

Hint Resolve watch_change_roi_mode watch_set_detector_threshold
  watch_set_cam_pvs watch_set_odin_pvs watch_set_mx_settings_pvs
  watch_set_num_triggers_and_captures watch_arm_detector : watches.

Lemma watch_stage : watches [] (stage hw) (fun _ => []).
Proof. unfold stage, enable_roi_mode. watch_walk. Qed.

Lemma watch_unstage : watches [] (unstage hw) (fun _ => []).
Proof. unfold unstage, disable_roi_mode, disarm_detector. watch_walk. Qed.

(** From the judgement to one run. *)
Lemma watches_run {A} (c : M device A) post (w : world device) a :
  watches [] c post ->
  fst (c w) = Ok a ->
  exists new,
    trace (snd (c w)) = trace w ++ new /\ watched (post a) new.
Proof.
  intros Hc Ha. destruct (c w) as [r w'] eqn:H. cbn [fst] in Ha. subst r.
  destruct (Hc w a w' H) as (new & Ht & Hw & _).
  exists new. split; [ exact Ht | exact Hw ].
Qed.

(** The status a configuration method returns covers every set the method
    issued and did not itself see finished: no set is left without a status
    that reaches the caller. *)
Theorem configuration_status_covers_sets (c : M device status)
  (w : world device) st :
  In c [set_cam_pvs; set_odin_pvs hw; set_mx_settings_pvs;
        set_num_triggers_and_captures]
  \/ (exists energy tolerance, c = set_detector_threshold hw energy tolerance) ->
  fst (c w) = Ok st ->
  exists new,
    trace (snd (c w)) = trace w ++ new
    /\ forall pre sig v post,
         new = pre ++ EvSet sig v :: post ->
         In (SSet sig v) (ApertureScatterguard.leaves st)
         \/ exists st' timeout,
              In (EvWait st' timeout DoneOk) post
              /\ In (SSet sig v) (ApertureScatterguard.leaves st').
Proof.
  intros Hc Hst.
  assert (H : watches [] c ApertureScatterguard.leaves).
  { destruct Hc as [[<- | [<- | [<- | [<- | []]]]] | (energy & tolerance & ->)].
    - unfold set_cam_pvs. watch_walk.
    - unfold set_odin_pvs. watch_walk.
    - unfold set_mx_settings_pvs, get_beam_position_pixels. watch_walk.
    - unfold set_num_triggers_and_captures. watch_walk.
    - unfold set_detector_threshold. watch_walk. }
  destruct (watches_run c _ w st H Hst) as (new & Ht & Hw).
  exists new. split; [ exact Ht | exact (watched_held _ _ Hw) ].
Qed.

(** A [stage] that returns has seen every set it issued finished: each set
    is followed by a wait that found finished a status the set is part
    of. *)
Theorem stage_waits_for_every_set (w : world device) u :
  fst (stage hw w) = Ok u ->
  exists new,
    trace (snd (stage hw w)) = trace w ++ new
    /\ forall pre sig v post,
         new = pre ++ EvSet sig v :: post ->
         exists st timeout,
           In (EvWait st timeout DoneOk) post
           /\ In (SSet sig v) (ApertureScatterguard.leaves st).
Proof.
  intros Hu. destruct (watches_run _ _ w u watch_stage Hu) as (new & Ht & Hw).
  exists new. split; [ exact Ht | exact (watched_nil _ Hw) ].
Qed.

(** The same for an [unstage] that returns. *)
Theorem unstage_waits_for_every_set (w : world device) ok :
  fst (unstage hw w) = Ok ok ->
  exists new,
    trace (snd (unstage hw w)) = trace w ++ new
    /\ forall pre sig v post,
         new = pre ++ EvSet sig v :: post ->
         exists st timeout,
           In (EvWait st timeout DoneOk) post
           /\ In (SSet sig v) (ApertureScatterguard.leaves st).
Proof.
  intros Hok.
  destruct (watches_run _ _ w ok watch_unstage Hok) as (new & Ht & Hw).
  exists new. split; [ exact Ht | exact (watched_nil _ Hw) ].
Qed.

End Watching.

Lemma configuration_status_covers_sets_witness :
  exists new,
    trace (snd (set_odin_pvs healthy_hw configured)) = trace configured ++ new
    /\ forall pre sig v post,
         new = pre ++ EvSet sig v :: post ->
         In (SSet sig v)
           (ApertureScatterguard.leaves
              (SAnd (SAnd (SAnd (SSet (Odin fw_file_path) (VStr "/test/dir/"))
                                (SSet (Odin fw_file_name) (VStr "test_0")))
                          (SAwait (Odin meta_file_name) (VStr "test_0")))
                    (SAwait (Odin fw_id) (VStr "test_0"))))
         \/ exists st' timeout,
              In (EvWait st' timeout DoneOk) post
              /\ In (SSet sig v) (ApertureScatterguard.leaves st').
Proof.
  apply (configuration_status_covers_sets healthy_hw (set_odin_pvs healthy_hw)
           configured).
  - left. right. left. reflexivity.
  - vm_compute. reflexivity.
Defined.

Lemma stage_waits_for_every_set_witness :
  exists new,
    trace (snd (stage healthy_hw configured)) = trace configured ++ new
    /\ forall pre sig v post,
         new = pre ++ EvSet sig v :: post ->
         exists st timeout,
           In (EvWait st timeout DoneOk) post
           /\ In (SSet sig v) (ApertureScatterguard.leaves st).
Proof.
  apply (stage_waits_for_every_set healthy_hw configured tt).
  vm_compute. reflexivity.
Defined.

Lemma unstage_waits_for_every_set_witness :
  exists new,
    trace (snd (unstage healthy_hw (snd (stage healthy_hw configured))))
      = trace (snd (stage healthy_hw configured)) ++ new
    /\ forall pre sig v post,
         new = pre ++ EvSet sig v :: post ->
         exists st timeout,
           In (EvWait st timeout DoneOk) post
           /\ In (SSet sig v) (ApertureScatterguard.leaves st).
Proof.
  apply (unstage_waits_for_every_set healthy_hw
           (snd (stage healthy_hw configured)) true).
  vm_compute. reflexivity.
Defined.

End Lifecycle.
